(** * Disk_Health_Monitor: telemetry synthesis and benchmark statistics

    A shallow embedding of [disk_health/smart.py], [disk_health/benchmark.py]
    and the types of [disk_health/dh_types.py], together with the properties
    of the two engines; then of the loop of the benchmark worker, of
    [disk_health/report_manager.py] and of the command wrappers of
    [disk_health/utils.py], where the machine (the device, the clock, the
    commands) is a record of what each call returns or raises.

    Python values that come out of [json.loads] are modelled by the inductive
    type [pyval]; an operation that can raise returns a [result], whose
    [Error] carries the class of the Python exception.  Python floats are
    IEEE 754 binary64 numbers: they are modelled by [spec_float] with the
    operations of the standard library's [SpecFloat] at precision 53. *)

From Stdlib Require Import ZArith List String Ascii Bool Lia.
From Stdlib Require Import Floats.SpecFloat.
Import ListNotations.
Local Open Scope string_scope.
Local Open Scope Z_scope.
Set Warnings "-register-all".

(** ** The Python runtime, as far as the two modules use it *)

Module Py.

(** The exception classes the modelled code can raise. *)
Inductive exn : Type :=
| TypeError
| AttributeError
| KeyError
| ValueError
| ZeroDivisionError
| OverflowError.

Inductive result (A : Type) : Type :=
| Ok (a : A)
| Error (e : exn).
Arguments Ok {A} a.
Arguments Error {A} e.

Definition bind {A B : Type} (r : result A) (k : A -> result B) : result B :=
  match r with
  | Ok a => k a
  | Error e => Error e
  end.

Definition fmap {A B : Type} (f : A -> B) (r : result A) : result B :=
  match r with
  | Ok a => Ok (f a)
  | Error e => Error e
  end.

(** [for x in xs: ...] with a body that may raise: the first exception
    stops the loop. *)
Fixpoint mapM {A B : Type} (f : A -> result B) (xs : list A) : result (list B) :=
  match xs with
  | [] => Ok []
  | x :: xs' =>
      bind (f x) (fun y => bind (mapM f xs') (fun ys => Ok (y :: ys)))
  end.

(** [str.lower] and [str.upper] map Unicode text; the development is
    parametric in the two case mappings, and [ascii_case] below gives the
    mappings on ASCII text, for evaluation.  The upper-case form of the
    empty string is the empty string. *)
Class CaseMapping : Type := {
  lower : string -> string;
  upper : string -> string;
  upper_empty : upper "" = ""
}.

Definition ascii_lower (c : ascii) : ascii :=
  let n := N_of_ascii c in
  if ((65 <=? n) && (n <=? 90))%N then ascii_of_N (n + 32) else c.

Definition ascii_upper (c : ascii) : ascii :=
  let n := N_of_ascii c in
  if ((97 <=? n) && (n <=? 122))%N then ascii_of_N (n - 32) else c.

Fixpoint map_string (f : ascii -> ascii) (s : string) : string :=
  match s with
  | EmptyString => EmptyString
  | String c s' => String (f c) (map_string f s')
  end.

#[export] Instance ascii_case : CaseMapping := {|
  lower := map_string ascii_lower;
  upper := map_string ascii_upper;
  upper_empty := eq_refl
|}.

(** [needle in hay] for two strings: substring search. *)
Fixpoint str_contains (needle hay : string) : bool :=
  if String.prefix needle hay then true
  else match hay with
       | EmptyString => false
       | String _ hay' => str_contains needle hay'
       end.

(** The characters of a string, each a string of length one (what
    iterating over a [str] yields). *)
Fixpoint str_chars (s : string) : list string :=
  match s with
  | EmptyString => []
  | String c s' => String c EmptyString :: str_chars s'
  end.

(** A value produced by [json.loads], or [None].  A dictionary keeps its
    items in insertion order; its keys are strings, as in JSON. *)
Inductive pyval : Type :=
| PNone
| PBool (b : bool)
| PInt (z : Z)
| PFloat (f : spec_float)
| PStr (s : string)
| PList (l : list pyval)
| PDict (d : list (string * pyval)).

(** Lookup of a key among the items of a dictionary. *)
Fixpoint assoc (key : string) (d : list (string * pyval)) : option pyval :=
  match d with
  | [] => None
  | (k, v) :: d' => if String.eqb key k then Some v else assoc key d'
  end.

(** Truth value of an object ([if x:], [not x], [x and ...]). *)
Definition truthy (v : pyval) : bool :=
  match v with
  | PNone => false
  | PBool b => b
  | PInt z => negb (z =? 0)
  | PFloat f => match f with S754_zero _ => false | _ => true end
  | PStr s => negb (String.eqb s "")
  | PList l => match l with [] => false | _ => true end
  | PDict d => match d with [] => false | _ => true end
  end.

(** [key == v] for a string [key]: only an equal string is equal to it. *)
Definition str_eq_val (key : string) (v : pyval) : bool :=
  match v with
  | PStr s => String.eqb key s
  | _ => false
  end.

(** [key in c] for a string [key]: a key of a dictionary, an element of a
    list, a substring of a string; any other object is not iterable. *)
Definition contains (key : string) (c : pyval) : result bool :=
  match c with
  | PDict d => Ok (match assoc key d with Some _ => true | None => false end)
  | PList l => Ok (existsb (str_eq_val key) l)
  | PStr s => Ok (str_contains key s)
  | _ => Error TypeError
  end.

(** [c.get(key, default)]: only a dictionary has the method. *)
Definition get (c : pyval) (key : string) (default : pyval) : result pyval :=
  match c with
  | PDict d => Ok (match assoc key d with Some v => v | None => default end)
  | _ => Error AttributeError
  end.

(** [c[key]] for a string [key]: list and string indices must be integers,
    the other objects are not subscriptable. *)
Definition getitem (c : pyval) (key : string) : result pyval :=
  match c with
  | PDict d => match assoc key d with Some v => Ok v | None => Error KeyError end
  | _ => Error TypeError
  end.

(** [c.items()]: only a dictionary has the method. *)
Definition items (c : pyval) : result (list (string * pyval)) :=
  match c with
  | PDict d => Ok d
  | _ => Error AttributeError
  end.

(** The elements [for x in c] ranges over: the elements of a list, the
    keys of a dictionary, the characters of a string. *)
Definition iter (c : pyval) : result (list pyval) :=
  match c with
  | PList l => Ok l
  | PDict d => Ok (map (fun kv => PStr (fst kv)) d)
  | PStr s => Ok (map PStr (str_chars s))
  | _ => Error TypeError
  end.

End Py.

Declare Scope py_scope.
Delimit Scope py_scope with py.
Notation "x <- e ;; k" := (Py.bind e (fun x => k))
  (at level 61, e at next level, right associativity) : py_scope.
Local Open Scope py_scope.

(** ** disk_health/dh_types.py *)

Module DhTypes.
Import Py.

Inductive DiskType : Type :=
| NVME
| SATA_ATA
| UNKNOWN.

Record SmartAttribute : Type := mkSmartAttribute {
  id : pyval;
  name : pyval;
  value : pyval;
  worst : pyval;
  thresh : pyval;
  raw : pyval
}.

Record SmartReport : Type := mkSmartReport {
  device : string;
  health : string;
  disk_type : DiskType;
  attributes : list SmartAttribute;
  report_raw : option string;
  json_data : pyval
}.

(** [SmartPayload] is a dictionary read with [.get("json")] and
    [.get("raw")]; an absent key reads as [None]. *)
Record SmartPayload : Type := mkSmartPayload {
  payload_json : pyval;
  payload_raw : option string
}.

Record BenchmarkResults : Type := mkBenchmarkResults {
  read_speeds : list spec_float;
  access_times : list spec_float;
  positions : list spec_float;
  avg_read_speed : spec_float;
  min_read_speed : spec_float;
  max_read_speed : spec_float;
  avg_access_time : spec_float;
  min_access_time : spec_float;
  max_access_time : spec_float
}.

End DhTypes.

(** ** disk_health/smart.py *)

Module Smart.
Import Py DhTypes.

Section WithCase.
Context {CM : CaseMapping}.

Definition _detect_disk_type (device : string) (json_data : pyval)
  : result DiskType :=
  if str_contains "nvme" (lower device) then Ok NVME
  else if truthy json_data then
    is_nvme <- contains "nvme_smart_health_information_log" json_data ;;
    if is_nvme then Ok NVME
    else
      is_ata <- contains "ata_smart_attributes" json_data ;;
      if is_ata then Ok SATA_ATA else Ok UNKNOWN
  else Ok UNKNOWN.

Definition ata_row (row : pyval) : result SmartAttribute :=
  a_id <- get row "id" (PStr "") ;;
  a_name <- get row "name" (PStr "") ;;
  a_value <- get row "value" (PStr "") ;;
  a_worst <- get row "worst" (PStr "") ;;
  a_thresh <- get row "thresh" (PStr "") ;;
  a_raw <- get row "raw" (PStr "") ;;
  Ok (mkSmartAttribute a_id a_name a_value a_worst a_thresh a_raw).

Definition _parse_ata_attributes (ata_table : pyval)
  : result (list SmartAttribute) :=
  rows <- iter ata_table ;;
  mapM ata_row rows.

Definition nvme_item (kv : string * pyval) : SmartAttribute :=
  let (key, val) := kv in
  mkSmartAttribute (PStr "-") (PStr key) val (PStr "") (PStr "") val.

Definition _parse_nvme_attributes (nvme_log : pyval)
  : result (list SmartAttribute) :=
  its <- items nvme_log ;;
  Ok (map nvme_item its).

Definition _determine_health_from_json (json_data : pyval) : result string :=
  smart_status <- get json_data "smart_status" PNone ;;
  if truthy smart_status then
    has_passed <- contains "passed" smart_status ;;
    if has_passed then
      passed <- getitem smart_status "passed" ;;
      Ok (if truthy passed then "PASSED" else "FAILED")
    else Ok "UNKNOWN"
  else Ok "UNKNOWN".

Definition _determine_health_from_raw (raw_data : option string) : string :=
  match raw_data with
  | None => "UNKNOWN"
  | Some text =>
      if String.eqb text "" then "UNKNOWN"
      else
        let raw_upper := upper text in
        if str_contains "PASSED" raw_upper || str_contains "OK" raw_upper
        then "PASSED"
        else if str_contains "FAILED" raw_upper then "FAILED"
        else "UNKNOWN"
  end.

(** Lines 93-102 of [synthesize_report]: the attribute list, by family. *)
Definition parse_attributes (disk_type : DiskType) (json_data : pyval)
  : result (list SmartAttribute) :=
  if truthy json_data then
    match disk_type with
    | NVME =>
        nvme_log <- get json_data "nvme_smart_health_information_log" (PDict []) ;;
        _parse_nvme_attributes nvme_log
    | SATA_ATA =>
        ata <- get json_data "ata_smart_attributes" (PDict []) ;;
        ata_table <- get ata "table" (PList []) ;;
        _parse_ata_attributes ata_table
    | UNKNOWN => Ok []
    end
  else Ok [].

Definition synthesize_report (device : string) (smart_payload : SmartPayload)
  : result SmartReport :=
  let json_data := payload_json smart_payload in
  let raw_data := payload_raw smart_payload in
  disk_type <- _detect_disk_type device json_data ;;
  health <- (if truthy json_data
             then _determine_health_from_json json_data
             else Ok (_determine_health_from_raw raw_data)) ;;
  attributes <- parse_attributes disk_type json_data ;;
  Ok (mkSmartReport device health disk_type attributes raw_data json_data).

End WithCase.

End Smart.

(** ** disk_health/benchmark.py *)

Module Benchmark.
Import Py DhTypes.

(** *** Arithmetic of [int] and [float] *)

Definition prec : Z := 53.
Definition emax : Z := 1024.

(** The float [0.0]. *)
Definition fzero : spec_float := S754_zero false.

(** [float(z)] for an integer: the nearest binary64 number, ties to even;
    [OverflowError] when it is out of range. *)
Definition float_of_int (z : Z) : result spec_float :=
  match binary_normalize prec emax z 0 false with
  | S754_infinity _ => Error OverflowError
  | f => Ok f
  end.

(** The float [100.0], which the integer literal [100] becomes in
    [float * 100]. *)
Definition f100 : spec_float :=
  Eval vm_compute in binary_normalize prec emax 100 0 false.

(** The floats [1.0], [150.0] and [200.0]. *)
Definition fone : spec_float :=
  Eval vm_compute in binary_normalize prec emax 1 0 false.

Definition f150 : spec_float :=
  Eval vm_compute in binary_normalize prec emax 150 0 false.

Definition f200 : spec_float :=
  Eval vm_compute in binary_normalize prec emax 200 0 false.

(** An integer as an unrounded binary number. *)
Definition int_as_binary (z : Z) : spec_float :=
  match z with
  | Z0 => S754_zero false
  | Zpos p => S754_finite false p 0
  | Zneg p => S754_finite true p 0
  end.

(** [a / b] for two integers (CPython's [long_true_divide]): the quotient
    of the two integers rounded once, to nearest, ties to even;
    [ZeroDivisionError] for a zero divisor, [OverflowError] when the
    quotient is too large for a float.  A zero dividend gives a zero with
    the sign of the divisor. *)
Definition int_truediv (a b : Z) : result spec_float :=
  if b =? 0 then Error ZeroDivisionError
  else if a =? 0 then Ok (S754_zero (b <? 0))
  else
    match SFdiv prec emax (int_as_binary a) (int_as_binary b) with
    | S754_infinity _ => Error OverflowError
    | q => Ok q
    end.

(** The float a decimal literal denotes: the float nearest to [n / d]
    ([lit 108 100] is [1.08]). *)
Definition lit (n d : Z) : spec_float :=
  match int_truediv n d with
  | Ok f => f
  | Error _ => S754_nan
  end.

(** [x / y] for two floats: Python raises on a zero divisor. *)
Definition float_truediv (x y : spec_float) : result spec_float :=
  match y with
  | S754_zero _ => Error ZeroDivisionError
  | _ => Ok (SFdiv prec emax x y)
  end.

Definition float_mul (x y : spec_float) : spec_float := SFmul prec emax x y.

(** [x <= 0] for a float and the integer literal [0]. *)
Definition float_le_zero (x : spec_float) : bool := SFleb x fzero.

(** [0 < x]. *)
Definition float_pos (x : spec_float) : bool := SFltb fzero x.

(** Truth value of a list: [if xs], [not xs]. *)
Definition list_truthy {A : Type} (xs : list A) : bool :=
  match xs with
  | [] => false
  | _ :: _ => true
  end.

(** *** The two computations on one sample *)

Definition _calculate_read_speed (data_size : Z) (elapsed_time : spec_float)
  : result spec_float :=
  if float_le_zero elapsed_time then Ok fzero
  else
    mb <- int_truediv data_size (1024 * 1024) ;;
    float_truediv mb elapsed_time.

Definition _calculate_position_percentage (position total_size : Z)
  : result spec_float :=
  if total_size <=? 0 then Ok fzero
  else
    q <- int_truediv position total_size ;;
    hundred <- float_of_int 100 ;;
    Ok (float_mul q hundred).

(** *** NumPy's reductions

    [numpy] is not part of the repository.  The development is parametric
    in what the three reductions compute on a float64 array: the mean of
    an array, and the minimum and the maximum of an array that has a first
    element. *)
Class Reductions : Type := {
  mean : list spec_float -> spec_float;
  amin : spec_float -> list spec_float -> spec_float;
  amax : spec_float -> list spec_float -> spec_float
}.

Section WithNumpy.
Context {NP : Reductions}.

(** [float(np.mean(xs))]; on an empty list NumPy warns and returns nan,
    it does not raise. *)
Definition np_mean (xs : list spec_float) : result spec_float :=
  Ok (mean xs).

(** [float(np.min(xs))]: [ValueError] on an empty list (a zero-size
    array has no minimum). *)
Definition np_min (xs : list spec_float) : result spec_float :=
  match xs with
  | [] => Error ValueError
  | x :: xs' => Ok (amin x xs')
  end.

(** [float(np.max(xs))]: [ValueError] on an empty list. *)
Definition np_max (xs : list spec_float) : result spec_float :=
  match xs with
  | [] => Error ValueError
  | x :: xs' => Ok (amax x xs')
  end.

(** *** The aggregation *)

Definition compute_benchmark_stats
  (read_speeds access_times positions : list spec_float)
  : result BenchmarkResults :=
  if negb (list_truthy read_speeds) then
    Ok (mkBenchmarkResults [] [] [] fzero fzero fzero fzero fzero fzero)
  else
    avg_rs <- np_mean read_speeds ;;
    min_rs <- np_min read_speeds ;;
    max_rs <- np_max read_speeds ;;
    avg_at <- (if list_truthy access_times then np_mean access_times
               else Ok fzero) ;;
    min_at <- (if list_truthy access_times then np_min access_times
               else Ok fzero) ;;
    max_at <- (if list_truthy access_times then np_max access_times
               else Ok fzero) ;;
    Ok (mkBenchmarkResults read_speeds access_times positions
          avg_rs min_rs max_rs avg_at min_at max_at).

End WithNumpy.

(** The summary of an empty run. *)
Definition zero_results : BenchmarkResults :=
  mkBenchmarkResults [] [] [] fzero fzero fzero fzero fzero fzero.

(** Reference reductions, for evaluation: a left-to-right sum divided by
    the length, and a left-to-right scan that keeps a nan once it meets
    one. *)
Definition fmin (x y : spec_float) : spec_float :=
  match x with
  | S754_nan => x
  | _ => match y with
         | S754_nan => y
         | _ => if SFltb y x then y else x
         end
  end.

Definition fmax (x y : spec_float) : spec_float :=
  match x with
  | S754_nan => x
  | _ => match y with
         | S754_nan => y
         | _ => if SFltb x y then y else x
         end
  end.

Definition seq_mean (xs : list spec_float) : spec_float :=
  SFdiv prec emax
    (fold_left (SFadd prec emax) xs fzero)
    (binary_normalize prec emax (Z.of_nat (List.length xs)) 0 false).

#[export] Instance seq_reductions : Reductions := {|
  mean := seq_mean;
  amin := fun x xs => fold_left fmin xs x;
  amax := fun x xs => fold_left fmax xs x
|}.

End Benchmark.

(** ** The shape a structured document is expected to have *)

Module Shape.
Import Py DhTypes.

Definition is_dict (v : pyval) : bool :=
  match v with
  | PDict _ => true
  | _ => false
  end.

(** The value read under a key, [default] when the key is absent. *)
Definition field (d : list (string * pyval)) (key : string) (default : pyval)
  : pyval :=
  match assoc key d with
  | Some v => v
  | None => default
  end.

(** The smart-status entry: absent, empty, or a key-value tree. *)
Definition status_ok (v : pyval) : bool := negb (truthy v) || is_dict v.

(** The ATA attribute table: a list whose rows are key-value trees. *)
Definition table_ok (v : pyval) : bool :=
  match v with
  | PList rows => forallb is_dict rows
  | _ => false
  end.

(** The ATA attributes entry: a key-value tree whose table, when it has
    one, is a table. *)
Definition ata_ok (v : pyval) : bool :=
  match v with
  | PDict a => table_ok (field a "table" (PList []))
  | _ => false
  end.

(** A structured document of the expected shape: absent (or empty), or a
    key-value tree whose smart-status, NVMe log and ATA attributes
    entries, where present, have their shapes. *)
Definition document_ok (json_data : pyval) : bool :=
  negb (truthy json_data) ||
  match json_data with
  | PDict d =>
      status_ok (field d "smart_status" PNone)
      && is_dict (field d "nvme_smart_health_information_log" (PDict []))
      && ata_ok (field d "ata_smart_attributes" (PDict []))
  | _ => false
  end.

(** The attribute a row of the ATA table stands for: each of the six
    fields read from the row, the empty string where the row has no such
    key. *)
Definition attribute_of_row (row : list (string * pyval)) : SmartAttribute :=
  mkSmartAttribute
    (field row "id" (PStr "")) (field row "name" (PStr ""))
    (field row "value" (PStr "")) (field row "worst" (PStr ""))
    (field row "thresh" (PStr "")) (field row "raw" (PStr "")).

(** An attribute that reads a row of the ATA table. *)
Definition reads_row (row : list (string * pyval)) (a : SmartAttribute) : Prop :=
  id a = field row "id" (PStr "") /\
  name a = field row "name" (PStr "") /\
  value a = field row "value" (PStr "") /\
  worst a = field row "worst" (PStr "") /\
  thresh a = field row "thresh" (PStr "") /\
  raw a = field row "raw" (PStr "").

(** An attribute of the NVMe schema: the placeholder for an identifier,
    no worst value and no threshold, the raw value equal to the value. *)
Definition nvme_attribute (a : SmartAttribute) : Prop :=
  id a = PStr "-" /\ worst a = PStr "" /\ thresh a = PStr "" /\
  raw a = value a.

(** The three health verdicts. *)
Definition is_verdict (h : string) : bool :=
  String.eqb h "PASSED" || String.eqb h "FAILED" || String.eqb h "UNKNOWN".

End Shape.

(** ** Predicates on floats *)

Module FloatPredicates.
Import Benchmark.

(** A zero or a finite number: neither an infinity nor a nan. *)
Definition is_finite (f : spec_float) : bool :=
  match f with
  | S754_zero _ | S754_finite _ _ _ => true
  | _ => false
  end.

(** [0.0 <= f]. *)
Definition float_nonneg (f : spec_float) : bool := SFleb fzero f.

Definition is_nan (f : spec_float) : bool :=
  match f with
  | S754_nan => true
  | _ => false
  end.

End FloatPredicates.

(** ** disk_health/benchmark.py: the worker *)

Module BenchmarkWorker.
Import Py DhTypes Benchmark.
Local Open Scope list_scope.

(** An exception raised by a call on the device: a [PermissionError],
    another [OSError] or a [RuntimeError], with its text, or an exception
    of a class [run] has no handler for (a [MemoryError] for a block that
    does not fit, ...), with the name of the class. *)
Inductive io_exception : Type :=
| PermissionError
| OSError (msg : string)
| RuntimeError (msg : string)
| OtherException (class : string).

(** The world a run takes place in: whether opening (and sizing) the
    device raises, the size of the device in bytes, whether the seek and
    the read of sample [i] raise, and the successive readings of
    [time.time()].  Closing the device is taken to succeed. *)
Record World : Type := mkWorld {
  open_error : option io_exception;
  total_bytes : Z;
  seek_error : Z -> option io_exception;
  read_error : Z -> option io_exception;
  time : nat -> spec_float
}.

(** One progress signal: percentage, read speed, access time. *)
Definition progress_event : Type := (spec_float * spec_float * spec_float)%type.

(** What the user sees at the end of a run: the [finished] signal with the
    results, one of the two message boxes, or an exception no handler of
    [run] catches, raised by the Python code or by a call on the device. *)
Inductive ending : Type :=
| Finished (results : BenchmarkResults)
| PermissionDialog
| ErrorDialog (msg : string)
| Uncaught (e : exn)
| UncaughtOther (class : string).

Record Trace : Type := mkTrace {
  progress : list progress_event;
  final : ending
}.

(** The three lists [run] hands to [_run_benchmark], the signals emitted so
    far, and the number of clock readings taken so far. *)
Record State : Type := mkState {
  st_read_speeds : list spec_float;
  st_access_times : list spec_float;
  st_positions : list spec_float;
  st_progress : list progress_event;
  st_ticks : nat
}.

(** The exception that ends a loop early. *)
Inductive stop : Type :=
| IoStop (e : io_exception)
| PyStop (e : exn).

Definition float_sub (x y : spec_float) : spec_float := SFsub prec emax x y.

(** [range(n)]. *)
Definition range (n : Z) : list Z := map Z.of_nat (seq 0 (Z.to_nat n)).

(** The number of bytes a read of [size] bytes returns at offset [pos] of a
    file of [total] bytes: the whole block, or what is left of the file;
    the size -1 reads to the end. *)
Definition read_len (total pos size : Z) : Z :=
  if size <? 0 then total - pos else Z.min size (total - pos).

Section WithWorld.
Context {NP : Reductions}.
Variable w : World.
Variables block_size sample_count : Z.

Definition seek_position (i total_size : Z) : Z :=
  (i * total_size) / sample_count.

(** Two clock readings around the seek of sample [i], in milliseconds. *)
Definition _measure_seek_time (i : Z) (ticks : nat)
  : stop + spec_float * nat :=
  let start_time := time w ticks in
  match seek_error w i with
  | Some e => inl (IoStop e)
  | None =>
      inr (float_mul (float_sub (time w (S ticks)) start_time) (lit 1000 1),
           S (S ticks))
  end.

(** [file_obj.read(self.block_size)] for sample [i], as the length of the
    data: a buffered reader rejects a size below -1 before it reads. *)
Definition read (total_size pos i : Z) : stop + Z :=
  if block_size <? -1 then inl (PyStop ValueError)
  else
    match read_error w i with
    | Some e => inl (IoStop e)
    | None => inr (read_len total_size pos block_size)
    end.

(** A clock reading, the read, and a second clock reading when data came
    back. *)
Definition _measure_read_speed (total_size pos i : Z) (ticks : nat)
  : stop + spec_float * nat :=
  let start_time := time w ticks in
  match read total_size pos i with
  | inl why => inl why
  | inr data_len =>
      if data_len =? 0 then inr (fzero, S ticks)
      else
        let elapsed_time := float_sub (time w (S ticks)) start_time in
        match _calculate_read_speed data_len elapsed_time with
        | Ok speed => inr (speed, S (S ticks))
        | Error e => inl (PyStop e)
        end
  end.

(** The body of the loop of [_run_benchmark] for sample [i]: nothing is
    appended or emitted when a step raises. *)
Definition sample (total_size i : Z) (st : State) : State + State * stop :=
  let seek_pos := seek_position i total_size in
  match _measure_seek_time i (st_ticks st) with
  | inl why => inr (st, why)
  | inr (seek_time, t1) =>
      match _measure_read_speed total_size seek_pos i t1 with
      | inl why => inr (st, why)
      | inr (read_speed, t2) =>
          match _calculate_position_percentage seek_pos total_size with
          | Error e => inr (st, PyStop e)
          | Ok percentage =>
              inl (mkState
                     (st_read_speeds st ++ [read_speed])
                     (st_access_times st ++ [seek_time])
                     (st_positions st ++ [percentage])
                     (st_progress st ++ [(percentage, read_speed, seek_time)])
                     t2)
          end
      end
  end.

Fixpoint samples (total_size : Z) (indices : list Z) (st : State)
  : State * option stop :=
  match indices with
  | [] => (st, None)
  | i :: rest =>
      match sample total_size i st with
      | inl st' => samples total_size rest st'
      | inr (st', why) => (st', Some why)
      end
  end.

Definition initial : State := mkState [] [] [] [] 0.

Definition _run_benchmark : State * option stop :=
  match open_error w with
  | Some e => (initial, Some (IoStop e))
  | None => samples (total_bytes w) (range sample_count) initial
  end.

Definition run : Trace :=
  let (st, stopped) := _run_benchmark in
  mkTrace (st_progress st)
    match stopped with
    | None =>
        match compute_benchmark_stats
                (st_read_speeds st) (st_access_times st) (st_positions st) with
        | Ok results => Finished results
        | Error e => Uncaught e
        end
    | Some (IoStop PermissionError) => PermissionDialog
    | Some (IoStop (OSError msg)) => ErrorDialog msg
    | Some (IoStop (RuntimeError msg)) => ErrorDialog msg
    | Some (IoStop (OtherException class)) => UncaughtOther class
    | Some (PyStop e) => Uncaught e
    end.

End WithWorld.

(** *** What a run is expected to show *)

(** The exception the calls of sample [i] raise, if any. *)
Definition fault_at (w : World) (i : Z) : option io_exception :=
  match seek_error w i with
  | Some e => Some e
  | None => read_error w i
  end.

(** The exceptions [run] has a handler for. *)
Definition caught (e : io_exception) : bool :=
  match e with
  | OtherException _ => false
  | _ => true
  end.

(** The world raises only what [run] has a handler for. *)
Definition only_caught (w : World) : Prop :=
  (forall e, open_error w = Some e -> caught e = true) /\
  (forall i e, fault_at w i = Some e -> caught e = true).

(** How a run ends on an exception of the world. *)
Definition outcome (e : io_exception) : ending :=
  match e with
  | PermissionError => PermissionDialog
  | OSError msg | RuntimeError msg => ErrorDialog msg
  | OtherException class => UncaughtOther class
  end.

Definition event_position (e : progress_event) : spec_float := fst (fst e).
Definition event_speed (e : progress_event) : spec_float := snd (fst e).
Definition event_access_time (e : progress_event) : spec_float := snd e.

(** The signal [e] carries the values of sample [i]: the position and the
    read speed the two computations give for the offset of the sample, and
    the difference of two successive clock readings. *)
Definition sampled_at (w : World) (block_size sample_count : Z)
           (i : Z) (e : progress_event) : Prop :=
  0 <= i < sample_count /\
  exists k : nat,
    let pos := seek_position sample_count i (total_bytes w) in
    let len := read_len (total_bytes w) pos block_size in
    _calculate_position_percentage pos (total_bytes w) = Ok (event_position e) /\
    (if len =? 0 then Ok fzero
     else _calculate_read_speed len
            (float_sub (time w (S (S (S k)))) (time w (S (S k)))))
    = Ok (event_speed e) /\
    event_access_time e
    = float_mul (float_sub (time w (S k)) (time w k)) (lit 1000 1).

(** The three lists are the three components of the signals emitted. *)
Definition consistent (st : State) : Prop :=
  st_positions st = map event_position (st_progress st) /\
  st_read_speeds st = map event_speed (st_progress st) /\
  st_access_times st = map event_access_time (st_progress st).

(** The first exception of the world in a run of [sample_count] samples:
    on opening the device, or in sample [k] when nothing raised before. *)
Inductive first_fault (w : World) (sample_count : Z)
  : Z -> io_exception -> Prop :=
| fault_on_open (e : io_exception) :
    open_error w = Some e -> first_fault w sample_count 0 e
| fault_on_sample (k : Z) (e : io_exception) :
    open_error w = None -> 0 <= k < sample_count ->
    (forall i, 0 <= i < k -> fault_at w i = None) ->
    fault_at w k = Some e ->
    first_fault w sample_count k e.

(** The six statistics of a summary are the mean, the minimum and the
    maximum of its speed series and of its latency series. *)
Definition summarised {NP : Reductions} (r : BenchmarkResults) : Prop :=
  np_mean (read_speeds r) = Ok (avg_read_speed r) /\
  np_min (read_speeds r) = Ok (min_read_speed r) /\
  np_max (read_speeds r) = Ok (max_read_speed r) /\
  np_mean (access_times r) = Ok (avg_access_time r) /\
  np_min (access_times r) = Ok (min_access_time r) /\
  np_max (access_times r) = Ok (max_access_time r).

Definition handled (e : ending) : bool :=
  match e with
  | Uncaught _ | UncaughtOther _ => false
  | _ => true
  end.

(** A clock for evaluation: it advances by a millisecond at each reading,
    up to one second. *)
Definition steady_clock (k : nat) : spec_float :=
  lit (Z.of_nat (Nat.min k 1000)) 1000.

(** A world for evaluation: a device of 1000 bytes that never fails. *)
Definition steady_world : World :=
  mkWorld None 1000 (fun _ => None) (fun _ => None) steady_clock.

(** The same device with an I/O error in the read of sample 2. *)
Definition faulty_world : World :=
  mkWorld None 1000 (fun _ => None)
    (fun i => if i =? 2 then Some (OSError "Input/output error") else None)
    steady_clock.

(** A device of no bytes. *)
Definition empty_world : World :=
  mkWorld None 0 (fun _ => None) (fun _ => None) steady_clock.

End BenchmarkWorker.

(** ** disk_health/report_manager.py *)

Module ReportManager.
Import Py DhTypes.

(** [DiskType.value]. *)
Definition disk_type_value (t : DiskType) : string :=
  match t with
  | NVME => "nvme"
  | SATA_ATA => "sata_ata"
  | UNKNOWN => "unknown"
  end.

(** A [str | None] as a value. *)
Definition optional_str (o : option string) : pyval :=
  match o with
  | Some s => PStr s
  | None => PNone
  end.

Definition attribute_data (attr : SmartAttribute) : pyval :=
  PDict [("id", id attr); ("name", name attr); ("value", value attr);
         ("worst", worst attr); ("thresh", thresh attr); ("raw", raw attr)].

(** The dictionary [save_json] hands to [json.dump]. *)
Definition report_data (report : SmartReport) : pyval :=
  PDict [("device", PStr (device report));
         ("health", PStr (health report));
         ("disk_type", PStr (disk_type_value (disk_type report)));
         ("attributes", PList (map attribute_data (attributes report)));
         ("raw", optional_str (report_raw report));
         ("json_data", json_data report)].

(** The rows [save_csv] hands to [writer.writerow], in order. *)
Definition csv_rows (report : SmartReport) : list (list pyval) :=
  [PStr "Device"; PStr "Health"; PStr "Type"]
  :: [PStr (device report); PStr (health report);
      PStr (disk_type_value (disk_type report))]
  :: []
  :: match disk_type report with
     | NVME =>
         [PStr "Name"; PStr "Value"; PStr "Raw"]
         :: map (fun attr => [name attr; value attr; raw attr])
              (attributes report)
     | _ =>
         [PStr "ID"; PStr "Name"; PStr "Value"; PStr "Worst"; PStr "Thresh";
          PStr "Raw"]
         :: map (fun attr => [id attr; name attr; value attr; worst attr;
                              thresh attr; raw attr])
              (attributes report)
     end.

(** [s.replace(old, new)] for two strings of one character. *)
Fixpoint replace_char (old new : ascii) (s : string) : string :=
  match s with
  | EmptyString => EmptyString
  | String c s' =>
      String (if Ascii.eqb c old then new else c) (replace_char old new s')
  end.

Definition safe_device (device : string) : string :=
  replace_char " " "_" (replace_char "/" "_" device).

Definition get_default_json_filename (device : string) : string :=
  "smart_report_" ++ safe_device device ++ ".json".

Definition get_default_csv_filename (device : string) : string :=
  "smart_report_" ++ safe_device device ++ ".csv".

End ReportManager.

(** ** disk_health/utils.py and [smart.run_smart_check] *)

Module Utils.
Import Py DhTypes Smart Shape.

(** [CommandResult]: the dictionary [run_cmd] returns. *)
Record CommandResult : Type := mkCommandResult {
  returncode : Z;
  stdout : string;
  stderr : string
}.

Record DeviceInfo : Type := mkDeviceInfo {
  path : string;
  model : pyval;
  size : pyval
}.

(** What [json.loads] does on a text: it returns the document, raises
    [JSONDecodeError] (a [ValueError] of its own), or raises another
    exception. *)
Inductive decoding : Type :=
| Decoded (doc : pyval)
| JSONDecodeError
| DecodeRaised (e : exn).

(** What the functions of the module ask of the machine and of the
    Python library: whether [smartctl] is on the path; what awaiting
    [run_cmd] on an argument list gives ([None] when it raises: a timeout,
    a process that cannot be spawned, output that cannot be decoded); what
    [json.loads] does on a text; whether a text is empty once stripped of
    white space; how a value that is not a string prints inside an
    f-string. *)
Record Runtime : Type := mkRuntime {
  has_smartctl : bool;
  run_cmd : list string -> option CommandResult;
  json_loads : string -> decoding;
  blank : string -> bool;
  format_value : pyval -> string
}.

(** How a call ends when it does not return. *)
Inductive raised : Type :=
| SmartctlNotFoundError
| CommandRaised
| Raised (e : exn).

Section WithRuntime.
Context {CM : CaseMapping}.
Variable rt : Runtime.

Definition query_smart_json (device : string) : raised + SmartPayload :=
  if negb (has_smartctl rt) then inl SmartctlNotFoundError
  else
    match run_cmd rt ["smartctl"; "-j"; "-H"; "-A"; device] with
    | None => inl CommandRaised
    | Some out =>
        if (returncode out =? 0) && negb (blank rt (stdout out)) then
          match json_loads rt (stdout out) with
          | Decoded doc => inr (mkSmartPayload doc (Some (stdout out)))
          | JSONDecodeError
          | DecodeRaised TypeError | DecodeRaised ValueError =>
              inr (mkSmartPayload PNone (Some (stdout out)))
          | DecodeRaised e => inl (Raised e)
          end
        else inr (mkSmartPayload PNone (Some (stdout out)))
    end.

(** [smart.run_smart_check]. *)
Definition run_smart_check (device : string) : raised + SmartReport :=
  match query_smart_json device with
  | inl why => inl why
  | inr smart_payload =>
      match synthesize_report device smart_payload with
      | Ok report => inr report
      | Error e => inl (Raised e)
      end
  end.

(** [f"{v}"]. *)
Definition fstring (v : pyval) : string :=
  match v with
  | PStr s => s
  | _ => format_value rt v
  end.

(** One step of the comprehension of [list_block_devices]. *)
Definition block_device (node : pyval) : result (option DeviceInfo) :=
  node_type <- get node "type" PNone ;;
  if str_eq_val "disk" node_type then
    node_name <- getitem node "name" ;;
    node_model <- get node "model" (PStr "") ;;
    node_size <- get node "size" (PStr "") ;;
    Ok (Some (mkDeviceInfo ("/dev/" ++ fstring node_name) node_model node_size))
  else Ok None.

Fixpoint somes {A : Type} (xs : list (option A)) : list A :=
  match xs with
  | [] => []
  | Some x :: xs' => x :: somes xs'
  | None :: xs' => somes xs'
  end.

Definition list_block_devices : raised + list DeviceInfo :=
  match run_cmd rt ["lsblk"; "-J"; "-o"; "NAME,MODEL,TYPE,SIZE"] with
  | None => inl CommandRaised
  | Some result =>
      if returncode result =? 0 then
        match json_loads rt (stdout result) with
        | JSONDecodeError => inr []
        | DecodeRaised e => inl (Raised e)
        | Decoded data =>
            match (blockdevices <- get data "blockdevices" (PList []) ;;
                   nodes <- iter blockdevices ;;
                   mapM block_device nodes) with
            | Ok found => inr (somes found)
            | Error e => inl (Raised e)
            end
        end
      else inr []
  end.

End WithRuntime.

(** Two machines for evaluation: one where every command exits with
    status 4 and prints a text that is not parsed, one where [lsblk]
    reports a disk and an optical drive. *)
Definition failing_runtime : Runtime :=
  mkRuntime true
    (fun _ => Some (mkCommandResult 4 "smart_status: passed: false" ""))
    (fun _ => JSONDecodeError)
    (fun s => String.eqb s "")
    (fun _ => "").

Definition lsblk_runtime : Runtime :=
  mkRuntime true
    (fun _ => Some (mkCommandResult 0 "lsblk output" ""))
    (fun _ =>
       Decoded
         (PDict [("blockdevices",
                  PList [PDict [("name", PStr "sda"); ("type", PStr "disk");
                                ("size", PStr "1T")];
                         PDict [("name", PStr "sr0"); ("type", PStr "rom")]])]))
    (fun s => String.eqb s "")
    (fun _ => "").

(** *** Well-formed output of [lsblk] *)

Definition is_disk (node : list (string * pyval)) : bool :=
  str_eq_val "disk" (field node "type" PNone).

Definition has_key (key : string) (node : list (string * pyval)) : bool :=
  match assoc key node with
  | Some _ => true
  | None => false
  end.

Definition device_of_node (rt : Runtime) (node : list (string * pyval))
  : DeviceInfo :=
  mkDeviceInfo ("/dev/" ++ fstring rt (field node "name" PNone))
    (field node "model" (PStr "")) (field node "size" (PStr "")).

End Utils.

Import Py DhTypes Smart Benchmark Shape.

(** * Properties *)

(** ** The error monad *)

Lemma bind_ok_inv {A B : Type} (r : result A) (k : A -> result B) (b : B) :
  (x <- r ;; k x) = Ok b -> exists a, r = Ok a /\ k a = Ok b.
Proof.
  destruct r as [a|e]; simpl; intros H; [eauto | discriminate].
Qed.

Lemma mapM_dicts {A : Type} (f : pyval -> result A)
      (g : list (string * pyval) -> A) :
  (forall d, f (PDict d) = Ok (g d)) ->
  forall rows, mapM f (map PDict rows) = Ok (map g rows).
Proof.
  intros Hf rows; induction rows as [|row rows IH]; simpl.
  - reflexivity.
  - rewrite Hf, IH; reflexivity.
Qed.

Lemma forallb_is_dict (l : list pyval) :
  forallb is_dict l = true -> exists rows, l = map PDict rows.
Proof.
  induction l as [|v l IH]; simpl; intros H.
  - exists []; reflexivity.
  - apply andb_true_iff in H as [Hv Hl].
    destruct (IH Hl) as [rows ->].
    destruct v; try discriminate.
    exists (d :: rows); reflexivity.
Qed.

(** ** The repository's unit tests, evaluated on the model *)

Example test_should_detect_nvme_when_device_path_contains_nvme :
  _detect_disk_type "/dev/nvme0n1" PNone = Ok NVME.
Proof. reflexivity. Qed.

Example test_should_detect_nvme_when_json_contains_nvme_data :
  _detect_disk_type "/dev/sda"
    (PDict [("nvme_smart_health_information_log",
             PDict [("temperature", PInt 35)])]) = Ok NVME.
Proof. reflexivity. Qed.

Example test_should_detect_sata_ata_when_json_contains_ata_data :
  _detect_disk_type "/dev/sda"
    (PDict [("ata_smart_attributes", PDict [("table", PList [])])])
  = Ok SATA_ATA.
Proof. reflexivity. Qed.

Example test_should_detect_unknown_when_no_identifying_data :
  _detect_disk_type "/dev/sda" (PDict [("some_other_data", PStr "value")])
  = Ok UNKNOWN.
Proof. reflexivity. Qed.

Example test_should_handle_missing_fields_when_ata_data_incomplete :
  _parse_ata_attributes (PList [PDict [("id", PInt 5); ("name", PStr "Test")]])
  = Ok [mkSmartAttribute (PInt 5) (PStr "Test") (PStr "") (PStr "") (PStr "")
          (PStr "")].
Proof. reflexivity. Qed.

Example test_should_return_unknown_when_passed_field_missing :
  _determine_health_from_json
    (PDict [("smart_status", PDict [("other_field", PStr "value")])])
  = Ok "UNKNOWN".
Proof. reflexivity. Qed.

Example test_should_return_failed_when_smart_status_passed_is_false :
  _determine_health_from_json
    (PDict [("smart_status", PDict [("passed", PBool false)])])
  = Ok "FAILED".
Proof. reflexivity. Qed.

Example test_should_determine_health_when_given_raw_data :
  map _determine_health_from_raw
    [Some "SMART overall-health self-assessment test result: PASSED";
     Some "SMART Health Status: OK";
     Some "some text FAILED other text";
     Some "No SMART support"; Some ""; None]
  = ["PASSED"; "PASSED"; "FAILED"; "UNKNOWN"; "UNKNOWN"; "UNKNOWN"].
Proof. reflexivity. Qed.

Example test_should_fallback_to_raw_parsing_when_json_data_missing :
  synthesize_report "/dev/sda"
    (mkSmartPayload PNone (Some "SMART test result: PASSED"))
  = Ok (mkSmartReport "/dev/sda" "PASSED" UNKNOWN []
          (Some "SMART test result: PASSED") PNone).
Proof. reflexivity. Qed.

Example test_should_calculate_speed_correctly_when_given_various_inputs :
  _calculate_read_speed (1024 * 1024) (lit 5 10) = Ok (lit 2 1) /\
  _calculate_read_speed (2 * 1024 * 1024) (lit 25 100) = Ok (lit 8 1) /\
  _calculate_read_speed (8 * 1024 * 1024) (lit 2 1) = Ok (lit 4 1).
Proof. repeat split. Qed.

Example test_should_calculate_percentage_correctly_when_given_various_inputs :
  _calculate_position_percentage 0 1000 = Ok (lit 0 1) /\
  _calculate_position_percentage 250 1000 = Ok (lit 25 1) /\
  _calculate_position_percentage 750 1000 = Ok (lit 75 1) /\
  _calculate_position_percentage 1000 1000 = Ok (lit 100 1) /\
  _calculate_position_percentage 1500 1000 = Ok (lit 150 1).
Proof. repeat split. Qed.

Example test_should_compute_stats_when_given_valid_data :
  fmap (fun r => (avg_read_speed r, min_read_speed r, max_read_speed r,
                  avg_access_time r, min_access_time r, max_access_time r))
    (compute_benchmark_stats
       [lit 100 1; lit 95 1; lit 105 1; lit 90 1; lit 110 1]
       [lit 1 1; lit 12 10; lit 8 10; lit 15 10; lit 9 10]
       [lit 0 1; lit 25 1; lit 50 1; lit 75 1; lit 100 1])
  = Ok (lit 100 1, lit 90 1, lit 110 1, lit 108 100, lit 8 10, lit 15 10).
Proof. reflexivity. Qed.

Example test_should_handle_mismatched_list_lengths_when_computing_stats :
  fmap (fun r => (avg_read_speed r, avg_access_time r,
                  List.length (read_speeds r), List.length (access_times r),
                  List.length (positions r)))
    (compute_benchmark_stats
       [lit 100 1; lit 95 1] [lit 1 1] [lit 0 1; lit 50 1; lit 100 1])
  = Ok (lit 975 10, lit 1 1, 2%nat, 1%nat, 3%nat).
Proof. reflexivity. Qed.

(** ** Family detection *)

Section SmartProperties.
Context {CM : CaseMapping}.

Lemma detect_by_device device json_data :
  str_contains "nvme" (lower device) = true ->
  _detect_disk_type device json_data = Ok NVME.
Proof.
  intros H; unfold _detect_disk_type; rewrite H; reflexivity.
Qed.

Lemma detect_dict device d :
  exists t, _detect_disk_type device (PDict d) = Ok t.
Proof.
  unfold _detect_disk_type.
  destruct (str_contains "nvme" (lower device)); [eauto|].
  destruct (truthy (PDict d)); [|eauto].
  simpl.
  destruct (assoc "nvme_smart_health_information_log" d); [eauto|].
  destruct (assoc "ata_smart_attributes" d); eauto.
Qed.

Lemma detect_falsy_total device json_data :
  truthy json_data = false ->
  exists t, _detect_disk_type device json_data = Ok t.
Proof.
  intros Hj; unfold _detect_disk_type; rewrite Hj.
  destruct (str_contains "nvme" (lower device)); eauto.
Qed.

Lemma detect_sata_inv device json_data :
  _detect_disk_type device json_data = Ok SATA_ATA ->
  truthy json_data = true /\
  contains "ata_smart_attributes" json_data = Ok true.
Proof.
  unfold _detect_disk_type.
  destruct (str_contains "nvme" (lower device)); [discriminate|].
  destruct (truthy json_data); [|discriminate].
  destruct (contains "nvme_smart_health_information_log" json_data)
    as [[|]|]; simpl; try discriminate.
  destruct (contains "ata_smart_attributes" json_data) as [[|]|];
    simpl; try discriminate.
  auto.
Qed.

(** ** Health verdict *)

Lemma health_from_raw_verdict raw_data :
  is_verdict (_determine_health_from_raw raw_data) = true.
Proof.
  unfold _determine_health_from_raw.
  destruct raw_data as [text|]; [|reflexivity].
  destruct (String.eqb text ""); [reflexivity|].
  destruct (str_contains "PASSED" (upper text) || str_contains "OK" (upper text));
    [reflexivity|].
  destruct (str_contains "FAILED" (upper text)); reflexivity.
Qed.

Lemma health_from_json_shape d :
  status_ok (field d "smart_status" PNone) = true ->
  exists h,
    _determine_health_from_json (PDict d) = Ok h /\
    is_verdict h = true /\
    (assoc "smart_status" d = None -> h = "UNKNOWN") /\
    (forall s, assoc "smart_status" d = Some (PDict s) ->
               assoc "passed" s = None -> h = "UNKNOWN").
Proof.
  unfold _determine_health_from_json, status_ok, field; simpl.
  destruct (assoc "smart_status" d) as [v|]; simpl.
  - destruct (truthy v) eqn:Hv; simpl; intros Hs.
    + destruct v; try discriminate; simpl.
      destruct (assoc "passed" d0) as [p|] eqn:Hp; simpl.
      * destruct (truthy p); eexists; repeat split; try reflexivity;
          try discriminate; intros s Heq; injection Heq as <-; congruence.
      * eexists; repeat split; try reflexivity; discriminate.
    + eexists; repeat split; try reflexivity; discriminate.
  - intros _; eexists; repeat split; reflexivity.
Qed.

(** ** Attribute extraction *)

Lemma ata_row_dict row : ata_row (PDict row) = Ok (attribute_of_row row).
Proof. reflexivity. Qed.

Lemma parse_ata_rows rows :
  _parse_ata_attributes (PList (map PDict rows))
  = Ok (map attribute_of_row rows).
Proof.
  unfold _parse_ata_attributes; simpl.
  apply mapM_dicts, ata_row_dict.
Qed.

Lemma mapM_ata_row_inv vs attrs :
  mapM ata_row vs = Ok attrs ->
  exists rows, vs = map PDict rows /\ attrs = map attribute_of_row rows.
Proof.
  revert attrs; induction vs as [|v vs IH]; simpl; intros attrs H.
  - injection H as <-; exists []; split; reflexivity.
  - apply bind_ok_inv in H as (a & Ha & H).
    apply bind_ok_inv in H as (attrs' & Hm & H).
    injection H as <-.
    destruct (IH _ Hm) as (rows & -> & ->).
    destruct v; try discriminate.
    rewrite ata_row_dict in Ha; injection Ha as <-.
    exists (d :: rows); split; reflexivity.
Qed.

Lemma parse_nvme_inv nvme_log attrs :
  _parse_nvme_attributes nvme_log = Ok attrs ->
  exists its, nvme_log = PDict its /\ attrs = map nvme_item its.
Proof.
  unfold _parse_nvme_attributes; intros H.
  destruct nvme_log; try discriminate; simpl in H.
  injection H as <-; eauto.
Qed.

Lemma get_dict d key default :
  get (PDict d) key default = Ok (field d key default).
Proof. reflexivity. Qed.

Lemma parse_attributes_shape t d :
  is_dict (field d "nvme_smart_health_information_log" (PDict [])) = true ->
  ata_ok (field d "ata_smart_attributes" (PDict [])) = true ->
  exists attrs, parse_attributes t (PDict d) = Ok attrs.
Proof.
  intros Hn Ha; unfold parse_attributes.
  destruct (truthy (PDict d)); [|eauto].
  destruct t; [| |eauto]; rewrite get_dict; cbn [bind].
  - destruct (field d "nvme_smart_health_information_log" (PDict []));
      try discriminate.
    unfold _parse_nvme_attributes; simpl; eauto.
  - destruct (field d "ata_smart_attributes" (PDict [])) as [| | | | | |a];
      try discriminate.
    rewrite get_dict; cbn [bind]; unfold ata_ok in Ha.
    destruct (field a "table" (PList [])) as [| | | | |rows|];
      try discriminate.
    destruct (forallb_is_dict _ Ha) as [rs ->].
    rewrite parse_ata_rows; eauto.
Qed.

Lemma parse_attributes_falsy t doc :
  truthy doc = false -> parse_attributes t doc = Ok [].
Proof. intros H; unfold parse_attributes; rewrite H; reflexivity. Qed.

Lemma reads_row_of_row rows :
  Forall2 reads_row rows (map attribute_of_row rows).
Proof.
  induction rows as [|row rows IH]; simpl; constructor; [|exact IH].
  repeat split.
Qed.

(** ** The claims on telemetry synthesis *)

(** C1 (as amended).  For every device and every payload whose structured
    document is absent or empty, or is a key-value tree of the expected
    shape (the smart-status entry absent, empty or a key-value tree; the
    NVMe log absent or a key-value tree; the ATA attributes absent or a
    key-value tree whose table is absent or a list of key-value rows),
    [synthesize_report] returns a report and raises nothing; the report
    keeps the device, the transcript and the document, its health is one
    of the three verdicts, and a missing smart-status entry or a missing
    [passed] field gives [UNKNOWN]. *)
Theorem synthesize_total_on_expected_shape dev doc transcript :
  document_ok doc = true ->
  exists r,
    synthesize_report dev (mkSmartPayload doc transcript) = Ok r /\
    device r = dev /\ report_raw r = transcript /\ json_data r = doc /\
    is_verdict (health r) = true /\
    (forall d, doc = PDict d -> d <> [] ->
               assoc "smart_status" d = None -> health r = "UNKNOWN") /\
    (forall d s, doc = PDict d ->
                 assoc "smart_status" d = Some (PDict s) ->
                 assoc "passed" s = None -> health r = "UNKNOWN") /\
    (truthy doc = false -> attributes r = []).
Proof.
  intros Hok; unfold document_ok in Hok.
  unfold synthesize_report; cbn [payload_json payload_raw].
  destruct (truthy doc) eqn:Ht.
  - simpl in Hok.
    destruct doc as [| | | | | |d]; try discriminate.
    apply andb_true_iff in Hok as [Hok Hata].
    apply andb_true_iff in Hok as [Hstatus Hnvme].
    destruct (detect_dict dev d) as [t ->].
    destruct (health_from_json_shape d Hstatus) as (h & -> & Hv & Hmiss & Hpassed).
    cbn [bind].
    destruct (parse_attributes_shape t d Hnvme Hata) as [attrs ->].
    cbn [bind].
    eexists; split; [reflexivity|]; cbn.
    repeat split; try assumption; try discriminate.
    + intros d' Hd _ Hs; injection Hd as <-; auto.
    + intros d' s Hd Hs Hp; injection Hd as <-; eauto.
  - destruct (detect_falsy_total dev doc Ht) as [t ->].
    cbn [bind]; rewrite (parse_attributes_falsy t doc Ht); cbn [bind].
    eexists; split; [reflexivity|]; cbn.
    repeat split; try reflexivity.
    + apply health_from_raw_verdict.
    + intros d -> Hd _; destruct d; [congruence | discriminate].
    + intros d s -> Hs _; destruct d; discriminate.
Qed.

(** C2 (as amended).  For every device and every structured document that
    is present and not empty, the health verdict of [synthesize_report]
    (or the exception it raises) is the same for any two transcripts,
    and a verdict is the one [_determine_health_from_json] derives from
    the document. *)
Theorem health_ignores_transcript_of_nonempty_document dev doc raw1 raw2 :
  truthy doc = true ->
  fmap health (synthesize_report dev (mkSmartPayload doc raw1))
  = fmap health (synthesize_report dev (mkSmartPayload doc raw2)) /\
  (forall r, synthesize_report dev (mkSmartPayload doc raw1) = Ok r ->
             _determine_health_from_json doc = Ok (health r)).
Proof.
  intros Ht; unfold synthesize_report; cbn [payload_json payload_raw].
  rewrite Ht.
  destruct (_detect_disk_type dev doc) as [t|e]; cbn [bind fmap].
  - destruct (_determine_health_from_json doc) as [h|e]; cbn [bind fmap].
    + destruct (parse_attributes t doc) as [attrs|e]; cbn [bind fmap].
      * split; [reflexivity|].
        intros r Hr; injection Hr as <-; reflexivity.
      * split; [reflexivity | discriminate].
    + split; [reflexivity | discriminate].
  - split; [reflexivity | discriminate].
Qed.

(** C3.  For every device whose lower-case form contains "nvme" and for
    every structured document, [None] included, family detection returns
    NVME, and so does every report synthesized for the device. *)
Theorem nvme_device_takes_precedence dev doc :
  str_contains "nvme" (lower dev) = true ->
  _detect_disk_type dev doc = Ok NVME /\
  (forall transcript r,
      synthesize_report dev (mkSmartPayload doc transcript) = Ok r ->
      disk_type r = NVME).
Proof.
  intros Hd; pose proof (detect_by_device dev doc Hd) as Hdet.
  split; [exact Hdet|].
  intros transcript r; unfold synthesize_report; cbn [payload_json payload_raw].
  rewrite Hdet; cbn [bind]; intros H.
  apply bind_ok_inv in H as (h & _ & H).
  apply bind_ok_inv in H as (attrs & _ & H).
  injection H as <-; reflexivity.
Qed.

(** C6.  For every payload with no structured document (the document is
    [None], or empty): the report is produced; an absent or empty
    transcript gives UNKNOWN; a transcript whose upper-case form contains
    "PASSED" or "OK" gives PASSED, also when it contains "FAILED"; one
    that contains neither and contains "FAILED" gives FAILED; any other
    gives UNKNOWN. *)
Theorem transcript_fallback_policy dev doc transcript :
  truthy doc = false ->
  exists r,
    synthesize_report dev (mkSmartPayload doc transcript) = Ok r /\
    health r = _determine_health_from_raw transcript /\
    (transcript = None \/ transcript = Some "" -> health r = "UNKNOWN") /\
    (forall text, transcript = Some text ->
       let u := upper text in
       (str_contains "PASSED" u = true \/ str_contains "OK" u = true ->
        health r = "PASSED") /\
       (str_contains "PASSED" u = false -> str_contains "OK" u = false ->
        str_contains "FAILED" u = true -> health r = "FAILED") /\
       (str_contains "PASSED" u = false -> str_contains "OK" u = false ->
        str_contains "FAILED" u = false -> health r = "UNKNOWN")).
Proof.
  intros Ht; unfold synthesize_report; cbn [payload_json payload_raw].
  destruct (detect_falsy_total dev doc Ht) as [t ->].
  rewrite Ht; cbn [bind]; rewrite (parse_attributes_falsy t doc Ht); cbn [bind].
  eexists; split; [reflexivity|]; cbn [health].
  split; [reflexivity|]; split.
  - intros [-> | ->]; reflexivity.
  - intros text ->; cbn zeta; unfold _determine_health_from_raw.
    destruct (String.eqb text "") eqn:He.
    + apply String.eqb_eq in He; subst text; rewrite upper_empty.
      repeat split; try reflexivity; try discriminate.
      intros [H | H]; discriminate H.
    + repeat split.
      * intros H.
        assert (str_contains "PASSED" (upper text)
                || str_contains "OK" (upper text) = true) as ->
            by (apply orb_true_iff; exact H).
        reflexivity.
      * intros -> -> ->; reflexivity.
      * intros -> -> ->; reflexivity.
Qed.

(** C9.  In every report [synthesize_report] produces, each attribute of
    an NVME report has the placeholder "-" for an identifier, the empty
    string for worst and threshold, and a raw value equal to its value;
    the attributes of a SATA_ATA report are, in order, the rows of the
    table under the ATA attributes entry, each of the six fields read
    from its row and the empty string where the row lacks the key.  A
    table whose rows are key-value trees never makes the parser raise,
    whatever keys the rows lack. *)
Theorem attribute_fields_by_family dev p r :
  synthesize_report dev p = Ok r ->
  (disk_type r = NVME -> Forall nvme_attribute (attributes r)) /\
  (disk_type r = SATA_ATA ->
   exists ata table rows,
     get (payload_json p) "ata_smart_attributes" (PDict []) = Ok ata /\
     get ata "table" (PList []) = Ok table /\
     iter table = Ok (map PDict rows) /\
     Forall2 reads_row rows (attributes r)) /\
  (forall rows,
      exists attrs,
        _parse_ata_attributes (PList (map PDict rows)) = Ok attrs /\
        Forall2 reads_row rows attrs).
Proof.
  unfold synthesize_report; intros H.
  apply bind_ok_inv in H as (t & Hdet & H).
  apply bind_ok_inv in H as (h & _ & H).
  apply bind_ok_inv in H as (attrs & Hattrs & H).
  injection H as <-; cbn [disk_type attributes].
  unfold parse_attributes in Hattrs.
  repeat split.
  - intros ->.
    destruct (truthy (payload_json p)).
    + apply bind_ok_inv in Hattrs as (nvme_log & _ & Hattrs).
      apply parse_nvme_inv in Hattrs as (its & _ & ->).
      apply Forall_forall; intros a Ha.
      apply in_map_iff in Ha as (kv & <- & _).
      destruct kv; repeat split.
    + injection Hattrs as <-; constructor.
  - intros ->.
    destruct (detect_sata_inv _ _ Hdet) as [Ht _].
    rewrite Ht in Hattrs.
    apply bind_ok_inv in Hattrs as (ata & Hata & Hattrs).
    apply bind_ok_inv in Hattrs as (table & Htable & Hattrs).
    unfold _parse_ata_attributes in Hattrs.
    apply bind_ok_inv in Hattrs as (vs & Hiter & Hattrs).
    apply mapM_ata_row_inv in Hattrs as (rows & -> & ->).
    exists ata, table, rows; repeat split; try assumption.
    apply reads_row_of_row.
  - intros rows; exists (map attribute_of_row rows); split.
    + apply parse_ata_rows.
    + apply reads_row_of_row.
Qed.

(** C10.  For every device whose name does not contain "nvme" (in any
    letter case) and every payload whose structured document is the empty
    key-value tree, [synthesize_report] answers as it does for an absent
    document: the family is UNKNOWN, the attribute list is empty and the
    health verdict is the one the transcript gives. *)
Theorem empty_document_as_absent dev transcript :
  str_contains "nvme" (lower dev) = false ->
  exists r r0,
    synthesize_report dev (mkSmartPayload (PDict []) transcript) = Ok r /\
    synthesize_report dev (mkSmartPayload PNone transcript) = Ok r0 /\
    disk_type r = UNKNOWN /\ attributes r = [] /\
    health r = _determine_health_from_raw transcript /\
    disk_type r = disk_type r0 /\ attributes r = attributes r0 /\
    health r = health r0.
Proof.
  intros Hd; unfold synthesize_report, _detect_disk_type.
  cbn [payload_json payload_raw truthy]; rewrite Hd; cbn.
  do 2 eexists; repeat split.
Qed.

End SmartProperties.

(** *** Evaluations on ASCII text *)

(** C1 (as stated) fails: a smart-status entry that is a number, and an ATA
    attributes entry that is a list, each make [synthesize_report] raise. *)
Lemma synthesize_raises_on_malformed_entries :
  synthesize_report "/dev/sda"
    (mkSmartPayload (PDict [("smart_status", PInt 1)]) (Some "PASSED"))
  = Error TypeError /\
  synthesize_report "/dev/sda"
    (mkSmartPayload (PDict [("smart_status", PList [PStr "passed"])]) None)
  = Error TypeError /\
  synthesize_report "/dev/sda"
    (mkSmartPayload (PDict [("ata_smart_attributes", PList [])]) None)
  = Error AttributeError.
Proof. repeat split. Qed.

Lemma synthesize_total_on_expected_shape_witness :
  exists r,
    synthesize_report "/dev/sda"
      (mkSmartPayload
         (PDict [("smart_status", PDict [("other_field", PStr "value")]);
                 ("ata_smart_attributes",
                  PDict [("table", PList [PDict [("id", PInt 5);
                                                 ("name", PStr "Test")]])])])
         (Some "raw output")) = Ok r /\
    health r = "UNKNOWN" /\ List.length (attributes r) = 1%nat.
Proof.
  destruct (synthesize_total_on_expected_shape "/dev/sda"
              (PDict [("smart_status", PDict [("other_field", PStr "value")]);
                      ("ata_smart_attributes",
                       PDict [("table", PList [PDict [("id", PInt 5);
                                                      ("name", PStr "Test")]])])])
              (Some "raw output") eq_refl)
    as (r & Hr & _ & _ & _ & _ & _ & Hpassed & _).
  exists r; split; [exact Hr|]; split.
  - apply (Hpassed _ _ eq_refl eq_refl eq_refl).
  - vm_compute in Hr; injection Hr as <-; reflexivity.
Defined.

(** C2 (as stated) fails: the empty key-value tree is a structured document
    that is present, and the verdict follows the transcript. *)
Lemma empty_document_consults_transcript :
  fmap health (synthesize_report "/dev/sda"
                 (mkSmartPayload (PDict []) (Some "SMART test result: PASSED")))
  = Ok "PASSED" /\
  fmap health (synthesize_report "/dev/sda"
                 (mkSmartPayload (PDict []) (Some "SMART test result: FAILED")))
  = Ok "FAILED".
Proof. split; reflexivity. Qed.

Lemma health_ignores_transcript_witness :
  fmap health (synthesize_report "/dev/sda"
                 (mkSmartPayload (PDict [("smart_status", PDict [("passed", PBool false)])])
                    (Some "SMART test result: PASSED")))
  = fmap health (synthesize_report "/dev/sda"
                 (mkSmartPayload (PDict [("smart_status", PDict [("passed", PBool false)])])
                    None)).
Proof.
  exact (proj1 (health_ignores_transcript_of_nonempty_document "/dev/sda"
                  (PDict [("smart_status", PDict [("passed", PBool false)])])
                  (Some "SMART test result: PASSED") None eq_refl)).
Defined.

Lemma nvme_device_takes_precedence_witness :
  _detect_disk_type "/dev/NVMe0n1"
    (PDict [("ata_smart_attributes", PDict [("table", PList [])])]) = Ok NVME /\
  _detect_disk_type "/dev/nvme0n1" PNone = Ok NVME.
Proof.
  split.
  - exact (proj1 (nvme_device_takes_precedence "/dev/NVMe0n1"
                    (PDict [("ata_smart_attributes", PDict [("table", PList [])])])
                    eq_refl)).
  - exact (proj1 (nvme_device_takes_precedence "/dev/nvme0n1" PNone eq_refl)).
Defined.

Lemma transcript_fallback_policy_witness :
  exists r,
    synthesize_report "/dev/sda"
      (mkSmartPayload PNone (Some "passed earlier, failed now")) = Ok r /\
    health r = "PASSED".
Proof.
  destruct (transcript_fallback_policy "/dev/sda" PNone
              (Some "passed earlier, failed now") eq_refl)
    as (r & Hr & _ & _ & Hpolicy).
  exists r; split; [exact Hr|].
  apply (proj1 (Hpolicy _ eq_refl)); left; reflexivity.
Defined.

Lemma attribute_fields_by_family_witness :
  Forall nvme_attribute
    [mkSmartAttribute (PStr "-") (PStr "temperature") (PInt 33)
       (PStr "") (PStr "") (PInt 33)] /\
  exists rows,
    Forall2 reads_row rows
      [mkSmartAttribute (PInt 5) (PStr "Test") (PStr "") (PStr "") (PStr "")
         (PStr "")].
Proof.
  split.
  - exact (proj1 (attribute_fields_by_family (CM := ascii_case) "/dev/nvme0n1"
                    (mkSmartPayload
                       (PDict [("nvme_smart_health_information_log",
                                PDict [("temperature", PInt 33)])])
                       None)
                    (mkSmartReport "/dev/nvme0n1" "UNKNOWN" NVME
                       [mkSmartAttribute (PStr "-") (PStr "temperature")
                          (PInt 33) (PStr "") (PStr "") (PInt 33)]
                       None
                       (PDict [("nvme_smart_health_information_log",
                                PDict [("temperature", PInt 33)])]))
                    eq_refl)
             eq_refl).
  - destruct (proj1 (proj2 (attribute_fields_by_family (CM := ascii_case) "/dev/sda"
                    (mkSmartPayload
                       (PDict [("ata_smart_attributes",
                                PDict [("table",
                                        PList [PDict [("id", PInt 5);
                                                      ("name", PStr "Test")]])])])
                       None)
                    (mkSmartReport "/dev/sda" "UNKNOWN" SATA_ATA
                       [mkSmartAttribute (PInt 5) (PStr "Test") (PStr "")
                          (PStr "") (PStr "") (PStr "")]
                       None
                       (PDict [("ata_smart_attributes",
                                PDict [("table",
                                        PList [PDict [("id", PInt 5);
                                                      ("name", PStr "Test")]])])]))
                    eq_refl))
             eq_refl) as (ata & table & rows & _ & _ & _ & Hrows).
    exists rows; exact Hrows.
Defined.

Lemma empty_document_as_absent_witness :
  exists r,
    synthesize_report "/dev/sda"
      (mkSmartPayload (PDict []) (Some "SMART Health Status: OK")) = Ok r /\
    disk_type r = UNKNOWN /\ attributes r = [] /\ health r = "PASSED".
Proof.
  destruct (empty_document_as_absent (CM := ascii_case) "/dev/sda" (Some "SMART Health Status: OK")
              eq_refl)
    as (r & r0 & Hr & _ & Ht & Ha & Hh & _).
  exists r; repeat split; assumption.
Defined.

(** ** Arithmetic of the benchmark *)

Lemma div_eucl_exact (m q : Z) :
  0 < m -> 0 <= q -> Z.div_eucl (q * m) m = (q, 0).
Proof.
  intros Hm Hq.
  pose proof (Z.div_eucl_eq (q * m) m ltac:(lia)) as He.
  pose proof (Z.mod_pos_bound (q * m) m Hm) as Hb.
  unfold Z.modulo in Hb.
  destruct (Z.div_eucl (q * m) m) as [q' r'].
  assert (q' = q) by nia.
  subst q'; f_equal; lia.
Qed.

Lemma div_core_self (p : positive) :
  SFdiv_core_binary prec emax (Zpos p) 0 (Zpos p) 0
  = (2 ^ 53, -53, loc_Exact).
Proof.
  unfold SFdiv_core_binary.
  replace (Zdigits2 (Zpos p) + 0 - (Zdigits2 (Zpos p) + 0)) with 0 by lia.
  change (Z.min (fexp prec emax 0) (0 - 0)) with (-53).
  change (0 - 0 - -53) with 53.
  cbv iota beta.
  rewrite Z.shiftl_mul_pow2 by lia.
  rewrite (Z.mul_comm (Zpos p)).
  rewrite div_eucl_exact by lia.
  unfold new_location, new_location_even, new_location_odd.
  destruct (Z.even (Zpos p)); reflexivity.
Qed.

Lemma div_core_double (p : positive) :
  SFdiv_core_binary prec emax (Zpos p~0) 0 (Zpos p) 0
  = (2 ^ 53, -52, loc_Exact).
Proof.
  unfold SFdiv_core_binary.
  replace (Zdigits2 (Zpos p~0) + 0 - (Zdigits2 (Zpos p) + 0)) with 1
    by (cbn [Zdigits2 digits2_pos]; lia).
  change (Z.min (fexp prec emax 1) (0 - 0)) with (-52).
  change (0 - 0 - -52) with 52.
  cbv iota beta.
  rewrite Z.shiftl_mul_pow2 by lia.
  replace (Zpos p~0 * 2 ^ 52) with (2 ^ 53 * Zpos p) by lia.
  rewrite div_eucl_exact by lia.
  unfold new_location, new_location_even, new_location_odd.
  destruct (Z.even (Zpos p)); reflexivity.
Qed.

Lemma int_truediv_self (a : Z) : 0 < a -> int_truediv a a = Ok fone.
Proof.
  intros Ha; destruct a as [|p|p]; try lia.
  unfold int_truediv; cbn [Z.eqb int_as_binary SFdiv xorb].
  rewrite div_core_self; reflexivity.
Qed.

Lemma int_truediv_double (a : Z) :
  0 < a -> int_truediv (2 * a) a = Ok (lit 2 1).
Proof.
  intros Ha; destruct a as [|p|p]; try lia.
  unfold int_truediv; cbn [Z.mul Pos.mul Z.eqb int_as_binary SFdiv xorb].
  rewrite div_core_double; reflexivity.
Qed.

Lemma float_pos_not_le_zero (x : spec_float) :
  float_pos x = true -> float_le_zero x = false.
Proof.
  unfold float_pos, float_le_zero.
  destruct x as [s|[|]| |[|] m e]; cbn; intros H; try discriminate; auto.
Qed.

Lemma float_truediv_nonzero (x y : spec_float) :
  float_pos y = true -> float_truediv x y = Ok (SFdiv prec emax x y).
Proof.
  unfold float_pos, float_truediv.
  destruct y as [s| | |]; cbn; intros H; try discriminate; reflexivity.
Qed.

(** ** The claims on the benchmark *)

(** C7.  [_calculate_position_percentage] is [position / total_size * 100]
    when [total_size > 0] and [0.0] when [total_size <= 0]; it is not
    clamped: a position equal to the total size gives exactly [100.0], a
    position twice the total size gives exactly [200.0], and position 1500
    of 1000 gives [150.0], above [100.0]. *)
Theorem position_percentage_not_clamped :
  (forall position total_size,
      total_size <= 0 ->
      _calculate_position_percentage position total_size = Ok fzero) /\
  (forall position total_size,
      0 < total_size ->
      _calculate_position_percentage position total_size
      = (q <- int_truediv position total_size ;; Ok (float_mul q f100))) /\
  (forall total_size,
      0 < total_size ->
      _calculate_position_percentage total_size total_size = Ok f100) /\
  (forall total_size,
      0 < total_size ->
      _calculate_position_percentage (2 * total_size) total_size = Ok f200) /\
  _calculate_position_percentage 1500 1000 = Ok f150 /\
  SFltb f100 f150 = true /\ SFltb f100 f200 = true.
Proof.
  repeat split.
  - intros position total_size H; unfold _calculate_position_percentage.
    destruct (Z.leb_spec total_size 0); [reflexivity | lia].
  - intros position total_size H; unfold _calculate_position_percentage.
    destruct (Z.leb_spec total_size 0); [lia | reflexivity].
  - intros total_size H; unfold _calculate_position_percentage.
    destruct (Z.leb_spec total_size 0); [lia|].
    rewrite int_truediv_self by assumption; reflexivity.
  - intros total_size H; unfold _calculate_position_percentage.
    destruct (Z.leb_spec total_size 0); [lia|].
    rewrite int_truediv_double by assumption; reflexivity.
Qed.

(** C8.  For every data size, [_calculate_read_speed] returns exactly [0.0]
    when the elapsed time is zero or negative, whatever the data size (no
    division is evaluated); when the elapsed time is positive it is
    [data_size / (1024 * 1024) / elapsed_time], and the division by the
    elapsed time does not raise. *)
Theorem read_speed_guarded :
  (forall data_size elapsed_time,
      float_le_zero elapsed_time = true ->
      _calculate_read_speed data_size elapsed_time = Ok fzero) /\
  (forall data_size elapsed_time,
      float_pos elapsed_time = true ->
      _calculate_read_speed data_size elapsed_time
      = (mb <- int_truediv data_size (1024 * 1024) ;;
         Ok (SFdiv prec emax mb elapsed_time))).
Proof.
  split; intros data_size elapsed_time H; unfold _calculate_read_speed.
  - rewrite H; reflexivity.
  - rewrite (float_pos_not_le_zero _ H).
    destruct (int_truediv data_size (1024 * 1024)) as [mb|e]; cbn [bind];
      [apply float_truediv_nonzero, H | reflexivity].
Qed.

Section BenchmarkProperties.
Context {NP : Reductions}.

(** C4 (as amended).  For every three series, of any lengths,
    [compute_benchmark_stats] returns a summary and raises nothing.  When
    the speed series is not empty the summary keeps the three series, the
    speed statistics are the mean, minimum and maximum of the speed
    series, and the latency statistics are the mean, minimum and maximum
    of the latency series, or [0.0] when the latency series is empty.
    When the speed series is empty the summary is the zero summary,
    whatever the other two series hold. *)
Theorem stats_of_each_series rs ats ps :
  exists r,
    compute_benchmark_stats rs ats ps = Ok r /\
    (rs = [] -> r = zero_results) /\
    (rs <> [] ->
     read_speeds r = rs /\ access_times r = ats /\ positions r = ps /\
     np_mean rs = Ok (avg_read_speed r) /\
     np_min rs = Ok (min_read_speed r) /\
     np_max rs = Ok (max_read_speed r) /\
     (ats <> [] ->
      np_mean ats = Ok (avg_access_time r) /\
      np_min ats = Ok (min_access_time r) /\
      np_max ats = Ok (max_access_time r)) /\
     (ats = [] ->
      avg_access_time r = fzero /\ min_access_time r = fzero /\
      max_access_time r = fzero)).
Proof.
  unfold compute_benchmark_stats.
  destruct rs as [|x rs]; cbn [list_truthy negb].
  - eexists; split; [reflexivity|]; split; [reflexivity | congruence].
  - destruct ats as [|y ats]; cbn; eexists; (split; [reflexivity|]);
      (split; [discriminate|]); intros _; cbn;
      repeat split; try reflexivity; try congruence; try discriminate.
Qed.

(** C5.  Three empty series give a summary whose six statistics are all
    exactly [0.0] (a zero, not a nan) and whose three series are empty;
    nothing is raised. *)
Theorem zero_value_aggregation :
  exists r,
    compute_benchmark_stats [] [] [] = Ok r /\
    read_speeds r = [] /\ access_times r = [] /\ positions r = [] /\
    avg_read_speed r = S754_zero false /\
    min_read_speed r = S754_zero false /\
    max_read_speed r = S754_zero false /\
    avg_access_time r = S754_zero false /\
    min_access_time r = S754_zero false /\
    max_access_time r = S754_zero false.
Proof.
  eexists; split; [reflexivity|]; cbn; repeat split.
Qed.

End BenchmarkProperties.

(** C4 (as stated) fails: with an empty speed series, a latency series that
    is not empty is dropped and its statistics are [0.0], not its own mean,
    minimum and maximum. *)
Lemma latency_dropped_when_speeds_empty :
  compute_benchmark_stats [] [f150] [] = Ok zero_results /\
  np_mean [f150] = Ok f150 /\
  np_min [f150] = Ok f150 /\
  np_max [f150] = Ok f150 /\
  SFeqb f150 fzero = false.
Proof. repeat split. Qed.

(** * Properties of the worker, the exports and the commands *)

Import FloatPredicates BenchmarkWorker ReportManager Utils.

(** ** Rounding in binary64

    What the properties below need of [SpecFloat]: how far rounding moves
    a mantissa and an exponent, so that the quotient of two integers below
    [2 ^ 1000] stays clear of the overflow threshold, and that rounding a
    quotient below 1, and then its product by 100, does not pass 1 and
    100. *)

Lemma fexp_eq (x : Z) : fexp prec emax x = Z.max (x - 53) (-1074).
Proof. reflexivity. Qed.

Lemma digits2_pos_log2 (p : positive) :
  Zpos (digits2_pos p) = Z.log2 (Zpos p) + 1.
Proof.
  induction p as [p IH|p IH|]; cbn [digits2_pos]; try reflexivity.
  - rewrite Pos2Z.inj_succ, IH.
    change (Zpos p~1) with (2 * Zpos p + 1).
    rewrite Z.log2_succ_double by lia; lia.
  - rewrite Pos2Z.inj_succ, IH.
    change (Zpos p~0) with (2 * Zpos p).
    rewrite Z.log2_double by lia; lia.
Qed.

Lemma Zdigits2_nonneg (m : Z) : 0 <= Zdigits2 m.
Proof. destruct m; cbn; lia. Qed.

Lemma Zdigits2_upper (m : Z) : 0 <= m -> m < 2 ^ Zdigits2 m.
Proof.
  intros Hm; destruct m as [|p|p]; try lia; [reflexivity|].
  cbn [Zdigits2]; rewrite digits2_pos_log2.
  apply Z.log2_spec; lia.
Qed.

Lemma Zdigits2_lower (p : positive) : 2 ^ (Zdigits2 (Zpos p) - 1) <= Zpos p.
Proof.
  cbn [Zdigits2]; rewrite digits2_pos_log2.
  replace (Z.log2 (Zpos p) + 1 - 1) with (Z.log2 (Zpos p)) by lia.
  apply Z.log2_spec; lia.
Qed.

Lemma Zdigits2_le_of_lt (m k : Z) : 0 <= m -> 0 <= k -> m < 2 ^ k -> Zdigits2 m <= k.
Proof.
  intros Hm Hk Hlt; destruct m as [|p|p]; try lia; [cbn; lia|].
  cbn [Zdigits2]; rewrite digits2_pos_log2.
  apply Z.log2_lt_pow2 in Hlt; lia.
Qed.

Lemma shr_1_m (r : shr_record) : 0 <= shr_m r -> shr_m (shr_1 r) = shr_m r / 2.
Proof.
  destruct r as [m b s]; cbn [shr_m]; intros Hm.
  destruct m as [|[p|p|]|p]; try lia; cbn [shr_1 shr_m].
  - reflexivity.
  - replace (Zpos p~1) with (1 + Zpos p * 2) by lia.
    rewrite Z.div_add by lia. reflexivity.
  - replace (Zpos p~0) with (Zpos p * 2) by lia.
    rewrite Z.div_mul by lia; reflexivity.
  - reflexivity.
Qed.

Lemma iter_shr_1_m (p : positive) (r : shr_record) :
  0 <= shr_m r -> shr_m (iter_pos shr_1 p r) = shr_m r / 2 ^ Zpos p.
Proof.
  revert r; induction p as [p IH|p IH|]; intros r Hr; cbn [iter_pos].
  - assert (H1 : 0 <= shr_m (shr_1 r)) by (rewrite shr_1_m by assumption; apply Z.div_pos; lia).
    assert (H2 : 0 <= shr_m (iter_pos shr_1 p (shr_1 r)))
      by (rewrite IH by assumption; apply Z.div_pos; lia).
    rewrite IH, IH, shr_1_m by assumption.
    rewrite !Z.div_div by lia.
    f_equal. replace (Zpos p~1) with (1 + (Zpos p + Zpos p)) by lia.
    rewrite Z.pow_add_r, Z.pow_add_r by lia. lia.
  - assert (H2 : 0 <= shr_m (iter_pos shr_1 p r))
      by (rewrite IH by assumption; apply Z.div_pos; lia).
    rewrite IH, IH by assumption.
    rewrite !Z.div_div by lia.
    f_equal. replace (Zpos p~0) with (Zpos p + Zpos p) by lia.
    rewrite Z.pow_add_r by lia. lia.
  - rewrite shr_1_m by assumption; reflexivity.
Qed.

Lemma shr_record_of_loc_m (m : Z) (l : location) :
  shr_m (shr_record_of_loc m l) = m.
Proof. destruct l as [|[| |]]; reflexivity. Qed.

Lemma div_pow2_lt (m d k : Z) :
  0 <= m -> 0 <= k -> 0 <= d -> m < 2 ^ d -> d <= k + 53 -> m / 2 ^ k < 2 ^ 53.
Proof.
  intros Hm Hk Hd Hlt Hle.
  apply Z.div_lt_upper_bound; [lia|].
  rewrite <- Z.pow_add_r by lia.
  apply Z.lt_le_trans with (2 ^ d); [assumption|].
  apply Z.pow_le_mono_r; lia.
Qed.

(** [shr_fexp] drops the low bits of the mantissa down to 53 bits, or down
    to the smallest exponent. *)
Lemma shr_fexp_spec (m e : Z) (l : location) :
  0 <= m ->
  exists r e',
    shr_fexp prec emax m e l = (r, e') /\
    e' = Z.max e (fexp prec emax (Zdigits2 m + e)) /\
    shr_m r = m / 2 ^ (e' - e) /\
    0 <= shr_m r < 2 ^ 53.
Proof.
  intros Hm; unfold shr_fexp, shr.
  pose proof (Zdigits2_nonneg m) as Hd.
  pose proof (Zdigits2_upper m Hm) as Hu.
  rewrite fexp_eq.
  destruct (Z.max (Zdigits2 m + e - 53) (-1074) - e) as [|p|p] eqn:Hn.
  - do 2 eexists; split; [reflexivity|].
    rewrite shr_record_of_loc_m.
    replace (Z.max e (Z.max (Zdigits2 m + e - 53) (-1074))) with e by lia.
    rewrite Z.sub_diag, Z.div_1_r.
    repeat split; try lia.
    apply Z.lt_le_trans with (2 ^ Zdigits2 m); [assumption|].
    apply Z.pow_le_mono_r; lia.
  - do 2 eexists; split; [reflexivity|].
    rewrite iter_shr_1_m by (rewrite shr_record_of_loc_m; assumption).
    rewrite shr_record_of_loc_m.
    replace (Z.max e (Z.max (Zdigits2 m + e - 53) (-1074))) with (e + Zpos p) by lia.
    replace (e + Zpos p - e) with (Zpos p) by lia.
    repeat split; try lia.
    + apply Z.div_pos; lia.
    + apply (div_pow2_lt m (Zdigits2 m)); lia.
  - do 2 eexists; split; [reflexivity|].
    rewrite shr_record_of_loc_m.
    replace (Z.max e (Z.max (Zdigits2 m + e - 53) (-1074))) with e by lia.
    rewrite Z.sub_diag, Z.div_1_r.
    repeat split; try lia.
    apply Z.lt_le_trans with (2 ^ Zdigits2 m); [assumption|].
    apply Z.pow_le_mono_r; lia.
Qed.

Lemma round_nearest_even_bounds (m : Z) (l : location) :
  m <= round_nearest_even m l <= m + 1.
Proof.
  unfold round_nearest_even.
  destruct l as [|[| |]]; try lia.
  destruct (Z.even m); lia.
Qed.

(** Rounding gives a zero, a finite number whose exponent is at most one
    above the target exponent, or an infinity, and this only for a target
    exponent above 970. *)
Lemma binary_round_aux_cases (s : bool) (m e : Z) (l : location) :
  0 <= m ->
  match binary_round_aux prec emax s m e l with
  | S754_zero s' => s' = s
  | S754_finite s' m' e' =>
      s' = s /\
      e' <= Z.max e (Z.max (Zdigits2 m + e - 53) (-1074)) + 1 /\
      Zdigits2 (Zpos m') <= 54
  | S754_infinity s' =>
      s' = s /\ 970 < Z.max e (Z.max (Zdigits2 m + e - 53) (-1074))
  | S754_nan => False
  end.
Proof.
  intros Hm; unfold binary_round_aux.
  destruct (shr_fexp_spec m e l Hm) as (r1 & e1 & -> & He1 & _ & Hr1).
  pose proof (round_nearest_even_bounds (shr_m r1) (loc_of_shr_record r1)) as Hrn.
  set (m1 := round_nearest_even (shr_m r1) (loc_of_shr_record r1)) in *.
  assert (Hm1 : 0 <= m1) by lia.
  destruct (shr_fexp_spec m1 e1 loc_Exact Hm1) as (r2 & e2 & -> & He2 & Hdiv & Hr2).
  rewrite fexp_eq in He1, He2.
  assert (Hd1 : Zdigits2 m1 <= 54)
    by (apply Zdigits2_le_of_lt; lia).
  pose proof (Zdigits2_nonneg m1).
  destruct (shr_m r2) as [|p|p] eqn:Hp; try lia.
  - reflexivity.
  - assert (Hp54 : Zdigits2 (Zpos p) <= 54).
    { apply Zdigits2_le_of_lt; lia. }
    destruct (Z.leb_spec e2 (emax - prec)) as [Hle|Hgt].
    + repeat split; [lia | assumption].
    + change (emax - prec) with 971 in Hgt. split; [reflexivity | lia].
Qed.

Lemma div_eucl_fst (a b : Z) : fst (Z.div_eucl a b) = a / b.
Proof. reflexivity. Qed.

Lemma div_core_nonneg (m1 m2 : positive) (e1 e2 : Z) :
  0 <= fst (fst (SFdiv_core_binary prec emax (Zpos m1) e1 (Zpos m2) e2)).
Proof.
  unfold SFdiv_core_binary.
  set (s := e1 - e2 - _).
  set (m' := match s with Z0 => Zpos m1 | Zpos _ => Z.shiftl (Zpos m1) s | Zneg _ => 0 end).
  assert (Hm' : 0 <= m').
  { subst m'; destruct s; try lia. apply Z.shiftl_nonneg; lia. }
  pose proof (div_eucl_fst m' (Zpos m2)) as Hq.
  destruct (Z.div_eucl m' (Zpos m2)) as [q r]; cbn [fst] in *.
  subst q; apply Z.div_pos; lia.
Qed.

(** The scaled quotient of two positive integers: its exponent is not
    positive, and its magnitude is that of the ratio. *)
Lemma div_core_int_bounds (a b : positive) :
  exists q e l,
    SFdiv_core_binary prec emax (Zpos a) 0 (Zpos b) 0 = (q, e, l) /\
    0 <= q /\ e <= 0 /\
    Zdigits2 q + e <= Z.max (Zdigits2 (Zpos a) - Zdigits2 (Zpos b) + 1) e.
Proof.
  unfold SFdiv_core_binary.
  set (d1 := Zdigits2 (Zpos a)); set (d2 := Zdigits2 (Zpos b)).
  rewrite fexp_eq.
  set (e := Z.min (Z.max (d1 + 0 - (d2 + 0) - 53) (-1074)) (0 - 0)).
  assert (He : e <= 0) by (subst e; lia).
  set (s := 0 - 0 - e).
  set (m' := match s with Z0 => Zpos a | Zpos _ => Z.shiftl (Zpos a) s | Zneg _ => 0 end).
  assert (Hm' : m' = Zpos a * 2 ^ s).
  { subst m'; destruct s eqn:Hs; try lia.
    rewrite Z.shiftl_mul_pow2 by lia; reflexivity. }
  pose proof (div_eucl_fst m' (Zpos b)) as Hq.
  destruct (Z.div_eucl m' (Zpos b)) as [q r]; cbn [fst] in Hq.
  exists q, e, (new_location (Zpos b) r); split; [reflexivity|].
  assert (Hs : 0 <= s) by (subst s; lia).
  assert (H2s : 0 < 2 ^ s) by (apply Z.pow_pos_nonneg; lia).
  assert (Hq0 : 0 <= q) by (subst q; apply Z.div_pos; nia).
  repeat split; try assumption.
  pose proof (Zdigits2_upper (Zpos a) ltac:(lia)) as Ha; fold d1 in Ha.
  pose proof (Zdigits2_lower b) as Hb; fold d2 in Hb.
  pose proof (Zdigits2_nonneg (Zpos a)) as Hd1; fold d1 in Hd1.
  assert (Hd2 : 1 <= d2) by (subst d2; cbn; lia).
  assert (Hqb : q * Zpos b <= m').
  { subst q; rewrite Z.mul_comm; apply Z.mul_div_le; lia. }
  assert (Hlt : q * 2 ^ (d2 - 1) < 2 ^ (d1 + s)).
  { rewrite Z.pow_add_r by lia. nia. }
  destruct (Z.le_gt_cases (d2 - 1) (d1 + s)) as [Hle|Hgt].
  - assert (q < 2 ^ (d1 + s - (d2 - 1))).
    { replace (d1 + s) with ((d1 + s - (d2 - 1)) + (d2 - 1)) in Hlt by lia.
      rewrite Z.pow_add_r in Hlt by lia.
      assert (0 < 2 ^ (d2 - 1)) by (apply Z.pow_pos_nonneg; lia).
      nia. }
    assert (Zdigits2 q <= d1 + s - (d2 - 1)) by (apply Zdigits2_le_of_lt; lia).
    subst s; lia.
  - assert (q = 0).
    { assert (2 ^ (d1 + s) <= 2 ^ (d2 - 1)) by (apply Z.pow_le_mono_r; lia).
      assert (0 < 2 ^ (d1 + s)) by (apply Z.pow_pos_nonneg; lia).
      nia. }
    subst q. rewrite H. cbn [Zdigits2]. lia.
Qed.

Lemma Zdigits2_mul (m1 m2 : positive) :
  Zdigits2 (Zpos (m1 * m2)) <= Zdigits2 (Zpos m1) + Zdigits2 (Zpos m2).
Proof.
  pose proof (Zdigits2_upper (Zpos m1) ltac:(lia)) as H1.
  pose proof (Zdigits2_upper (Zpos m2) ltac:(lia)) as H2.
  pose proof (Zdigits2_nonneg (Zpos m1)).
  pose proof (Zdigits2_nonneg (Zpos m2)).
  apply Zdigits2_le_of_lt; try lia.
  rewrite Z.pow_add_r by lia. rewrite Pos2Z.inj_mul. nia.
Qed.

(** The true division of an integer below [2 ^ 1000] in absolute value by
    an integer other than 0 raises nothing, and gives a zero or a finite
    number of exponent at most 950, with the sign of the quotient. *)
Lemma int_truediv_cases (a b : Z) :
  b <> 0 -> Z.abs a < 2 ^ 1000 ->
  exists f,
    int_truediv a b = Ok f /\
    match f with
    | S754_zero s => s = xorb (a <? 0) (b <? 0)
    | S754_finite s m e =>
        s = xorb (a <? 0) (b <? 0) /\ e <= 950 /\ Zdigits2 (Zpos m) <= 54
    | _ => False
    end.
Proof.
  intros Hb Ha; unfold int_truediv.
  destruct (Z.eqb_spec b 0) as [|_]; [contradiction|].
  destruct (Z.eqb_spec a 0) as [->|Ha0].
  - eexists; split; [reflexivity|]. destruct (b <? 0); reflexivity.
  - assert (exists sa pa sb pb,
               int_as_binary a = S754_finite sa pa 0 /\
               int_as_binary b = S754_finite sb pb 0 /\
               sa = (a <? 0) /\ sb = (b <? 0) /\ Zpos pa = Z.abs a)
      as (sa & pa & sb & pb & -> & -> & Hsa & Hsb & Hpa).
    { destruct a as [|pa|pa]; [contradiction| |];
        (destruct b as [|pb|pb]; [contradiction| |]);
        do 4 eexists; repeat split. }
    cbn [SFdiv].
    destruct (div_core_int_bounds pa pb) as (q & e & l & -> & Hq & He & Hd).
    pose proof (binary_round_aux_cases (xorb sa sb) q e l Hq) as Hr.
    assert (Hda : Zdigits2 (Zpos pa) <= 1000)
      by (apply Zdigits2_le_of_lt; lia).
    assert (Hdb : 1 <= Zdigits2 (Zpos pb)) by (cbn; lia).
    subst sa sb.
    destruct (binary_round_aux prec emax (xorb (a <? 0) (b <? 0)) q e l)
      as [s|s| |s m' e'].
    + eexists; split; [reflexivity | assumption].
    + exfalso; lia.
    + contradiction.
    + eexists; split; [reflexivity|].
      destruct Hr as (Hs & He' & Hm'); repeat split; try assumption; lia.
Qed.

(** Multiplying a zero, or a finite number of exponent at most 950, by
    [100.0] gives a zero or a finite number of the same sign. *)
Lemma float_mul_f100_cases (f : spec_float) :
  match f with
  | S754_zero _ => True
  | S754_finite _ m e => e <= 950 /\ Zdigits2 (Zpos m) <= 54
  | _ => False
  end ->
  match float_mul f f100 with
  | S754_zero s => exists m, f = S754_zero s \/ exists e, f = S754_finite s m e
  | S754_finite s _ _ => exists m e, f = S754_finite s m e
  | _ => False
  end.
Proof.
  destruct f as [s|s| |s m e]; try contradiction; intros H.
  - cbn. exists 1%positive; left; destruct s; reflexivity.
  - destruct H as [He Hm]; unfold float_mul, f100; cbn [SFmul].
    set (m' := Zpos (m * 7036874417766400)).
    pose proof (binary_round_aux_cases (xorb s false) m' (e + -46) loc_Exact
                  ltac:(subst m'; lia)) as Hr.
    assert (Hd : Zdigits2 m' <= 54 + 53).
    { subst m'; etransitivity; [apply Zdigits2_mul|].
      change (Zdigits2 7036874417766400) with 53; lia. }
    rewrite xorb_false_r in *.
    destruct (binary_round_aux prec emax s m' (e + -46) loc_Exact)
      as [s'|s'| |s' m'' e''].
    + subst s'; exists m; right; eauto.
    + lia.
    + contradiction.
    + destruct Hr as [-> _]; eauto.
Qed.

(** The sign of a quotient by a positive float. *)
Lemma SFdiv_sign (s : bool) (x y : spec_float) :
  match x with
  | S754_zero s' | S754_finite s' _ _ => s' = s
  | _ => False
  end ->
  float_pos y = true ->
  match SFdiv prec emax x y with
  | S754_zero s' | S754_finite s' _ _ | S754_infinity s' => s' = s
  | S754_nan => False
  end.
Proof.
  intros Hx Hy.
  destruct y as [sy|[|]| |[|] my ey]; try discriminate Hy;
    destruct x as [sx|sx| |sx mx ex]; try contradiction; subst sx;
    cbn [SFdiv]; rewrite ?xorb_false_r; try reflexivity.
  pose proof (div_core_nonneg mx my ex ey) as Hq.
  destruct (SFdiv_core_binary prec emax (Zpos mx) ex (Zpos my) ey) as [[q e] l].
  cbn [fst] in Hq.
  pose proof (binary_round_aux_cases s q e l Hq) as Hr.
  destruct (binary_round_aux prec emax s q e l); try tauto.
Qed.

Lemma nonneg_of_sign (f : spec_float) :
  match f with
  | S754_zero _ => True
  | S754_finite s _ _ | S754_infinity s => s = false
  | S754_nan => False
  end -> float_nonneg f = true.
Proof.
  destruct f as [s|s| |s m e]; try contradiction; intros H; try subst s; reflexivity.
Qed.

Lemma pow2_split (x y : Z) : 0 <= y -> y <= x -> 2 ^ x = 2 ^ (x - y) * 2 ^ y.
Proof.
  intros Hy Hxy; rewrite <- Z.pow_add_r by lia; f_equal; lia.
Qed.

(** Rounding to nearest does not pass a small integer bound: a mantissa
    [m] at exponent [e] whose value is below the integer [C], of at most
    53 bits, rounds to a float of value at most [C]. *)
Lemma binary_round_aux_le (C c : Z) (s : bool) (m e : Z) (l : location) :
  0 <= m -> 0 < C < 2 ^ c -> 0 <= c <= 53 -> e <= c - 53 ->
  m + 1 <= C * 2 ^ (- e) ->
  match binary_round_aux prec emax s m e l with
  | S754_zero s' => s' = s
  | S754_finite s' m' e' =>
      s' = s /\ e' <= c - 53 /\ Zpos m' <= C * 2 ^ (- e') /\ Zpos m' < 2 ^ 53
  | _ => False
  end.
Proof.
  intros Hm HC Hc He Hlt; unfold binary_round_aux.
  destruct (shr_fexp_spec m e l Hm) as (r1 & e1 & -> & He1 & Hr1 & Hb1).
  pose proof (round_nearest_even_bounds (shr_m r1) (loc_of_shr_record r1)) as Hrn.
  set (m1 := round_nearest_even (shr_m r1) (loc_of_shr_record r1)) in *.
  assert (Hm1 : 0 <= m1) by lia.
  destruct (shr_fexp_spec m1 e1 loc_Exact Hm1) as (r2 & e2 & -> & He2 & Hr2 & Hb2).
  rewrite fexp_eq in He1, He2.
  assert (Hpe : 0 < 2 ^ (- e)) by (apply Z.pow_pos_nonneg; lia).
  assert (Hmc : m < 2 ^ (c - e)).
  { replace (c - e) with (c + - e) by lia; rewrite Z.pow_add_r by lia. nia. }
  assert (Hd : Zdigits2 m <= c - e) by (apply Zdigits2_le_of_lt; lia).
  assert (He1c : e1 <= c - 53) by lia.
  assert (Hk : 0 <= e1 - e) by lia.
  assert (Hpe1 : 0 < 2 ^ (- e1)) by (apply Z.pow_pos_nonneg; lia).
  assert (Hpk : 0 < 2 ^ (e1 - e)) by (apply Z.pow_pos_nonneg; lia).
  assert (Hsplit : 2 ^ (- e) = 2 ^ (- e1) * 2 ^ (e1 - e)).
  { rewrite <- Z.pow_add_r by lia; f_equal; lia. }
  assert (Hq : shr_m r1 < C * 2 ^ (- e1)).
  { rewrite Hr1; apply Z.div_lt_upper_bound; [lia|]. nia. }
  assert (Hm1le : m1 <= C * 2 ^ (- e1)) by lia.
  assert (Hm1c : m1 < 2 ^ (c - e1)).
  { replace (c - e1) with (c + - e1) by lia; rewrite Z.pow_add_r by lia. nia. }
  assert (Hd1 : Zdigits2 m1 <= c - e1) by (apply Zdigits2_le_of_lt; lia).
  assert (He2c : e2 <= c - 53) by lia.
  assert (Hj : 0 <= e2 - e1) by lia.
  assert (Hpe2 : 0 < 2 ^ (- e2)) by (apply Z.pow_pos_nonneg; lia).
  assert (Hpj : 0 < 2 ^ (e2 - e1)) by (apply Z.pow_pos_nonneg; lia).
  assert (Hsplit2 : 2 ^ (- e1) = 2 ^ (- e2) * 2 ^ (e2 - e1)).
  { rewrite <- Z.pow_add_r by lia; f_equal; lia. }
  assert (Hm2 : shr_m r2 <= C * 2 ^ (- e2)).
  { rewrite Hr2.
    apply Z.le_trans with ((C * 2 ^ (- e2) * 2 ^ (e2 - e1)) / 2 ^ (e2 - e1)).
    - apply Z.div_le_mono; [lia|]. nia.
    - rewrite Z.div_mul by lia; lia. }
  destruct (shr_m r2) as [|p|p] eqn:Hp; try lia.
  - reflexivity.
  - destruct (Z.leb_spec e2 (emax - prec)) as [Hle|Hgt].
    + repeat split; lia.
    + change (emax - prec) with 971 in Hgt; lia.
Qed.

Lemma div_core_lt (a b : positive) :
  (Zpos a < Zpos b) ->
  exists q e l,
    SFdiv_core_binary prec emax (Zpos a) 0 (Zpos b) 0 = (q, e, l) /\
    0 <= q /\ e <= -53 /\ q + 1 <= 1 * 2 ^ (- e).
Proof.
  intros Hab; unfold SFdiv_core_binary.
  set (d1 := Zdigits2 (Zpos a)); set (d2 := Zdigits2 (Zpos b)).
  assert (Hd : d1 <= d2).
  { subst d1 d2; apply Zdigits2_le_of_lt; try lia.
    - apply Zdigits2_nonneg.
    - pose proof (Zdigits2_upper (Zpos b) ltac:(lia)); lia. }
  rewrite fexp_eq.
  set (e := Z.min (Z.max (d1 + 0 - (d2 + 0) - 53) (-1074)) (0 - 0)).
  assert (He : e <= -53) by (subst e; lia).
  set (s := 0 - 0 - e).
  set (m' := match s with Z0 => Zpos a | Zpos _ => Z.shiftl (Zpos a) s | Zneg _ => 0 end).
  assert (Hm' : m' = Zpos a * 2 ^ s).
  { subst m'; destruct s eqn:Hs; try lia.
    rewrite Z.shiftl_mul_pow2 by lia; reflexivity. }
  pose proof (div_eucl_fst m' (Zpos b)) as Hq.
  destruct (Z.div_eucl m' (Zpos b)) as [q r]; cbn [fst] in Hq.
  exists q, e, (new_location (Zpos b) r); split; [reflexivity|].
  assert (H2s : 0 < 2 ^ s) by (apply Z.pow_pos_nonneg; subst s; lia).
  split; [subst q; apply Z.div_pos; nia|]; split; [exact He|].
  replace (- e) with s by (subst s; lia).
  assert (q < 2 ^ s); [|lia].
  subst q; apply Z.div_lt_upper_bound; [lia|]. nia.
Qed.

(** The true division of a positive integer by a larger one is at most
    [1.0]. *)
Lemma int_truediv_lt (a b : Z) :
  0 < a < b ->
  exists q,
    int_truediv a b = Ok q /\
    match q with
    | S754_zero s => s = false
    | S754_finite s m e =>
        s = false /\ e <= -52 /\ Zpos m <= 2 ^ (- e) /\ Zpos m < 2 ^ 53
    | _ => False
    end.
Proof.
  intros Hab; destruct a as [|pa|pa]; try lia; destruct b as [|pb|pb]; try lia.
  unfold int_truediv; cbn [Z.eqb int_as_binary SFdiv xorb].
  destruct (div_core_lt pa pb ltac:(lia)) as (q & e & l & -> & Hq & He & Hlt).
  pose proof (binary_round_aux_le 1 1 false q e l Hq ltac:(lia) ltac:(lia)
                ltac:(lia) Hlt) as Hr.
  destruct (binary_round_aux prec emax false q e l) as [s|s| |s m' e'];
    try contradiction.
  - eexists; split; [reflexivity | exact Hr].
  - eexists; split; [reflexivity|].
    destruct Hr as (Hs & He' & Hm' & Hb); repeat split; try assumption; lia.
Qed.

(** A positive float whose value is at most 100 compares below
    [100.0]. *)
Lemma SFleb_f100 (m : positive) (e : Z) :
  e <= -46 -> Zpos m <= 100 * 2 ^ (- e) ->
  SFleb (S754_finite false m e) f100 = true.
Proof.
  intros He Hm.
  assert (Hcase : e < -46 \/ e = -46) by lia.
  destruct Hcase as [Hlt | ->].
  - unfold SFleb, f100; cbn [SFcompare].
    apply Z.compare_lt_iff in Hlt; rewrite Hlt; reflexivity.
  - assert (Hk : 100 * 2 ^ (- -46) = 7036874417766400) by (vm_compute; reflexivity).
    rewrite Hk in Hm; clear Hk.
    unfold SFleb, f100; cbn [SFcompare Z.compare Pos.compare].
    rewrite Pos.compare_cont_spec.
    destruct (Pos.compare_spec m 7036874417766400) as [Heq|Hlt|Hgt];
      try reflexivity.
    apply Pos2Z.pos_lt_pos in Hgt. lia.
Qed.

Lemma float_of_int_100 : float_of_int 100 = Ok f100.
Proof. reflexivity. Qed.

(** ** The two computations on one sample *)

Lemma position_percentage_cases (position total_size : Z) :
  Z.abs position < 2 ^ 1000 ->
  exists f,
    _calculate_position_percentage position total_size = Ok f /\
    is_finite f = true /\
    (0 <= position -> float_nonneg f = true).
Proof.
  intros Hp; unfold _calculate_position_percentage.
  destruct (Z.leb_spec total_size 0) as [Hle|Hgt].
  - exists fzero; repeat split.
  - destruct (int_truediv_cases position total_size ltac:(lia) Hp)
      as (q & -> & Hq); cbn [bind].
    rewrite float_of_int_100; cbn [bind].
    eexists; split; [reflexivity|].
    assert (Hs : (total_size <? 0) = false) by (apply Z.ltb_ge; lia).
    rewrite Hs, xorb_false_r in Hq.
    pose proof (float_mul_f100_cases q) as Hm.
    destruct q as [s|s| |s m e]; try contradiction.
    + specialize (Hm I).
      destruct (float_mul (S754_zero s) f100) as [s'|s'| |s' m' e'];
        try contradiction; split; try reflexivity.
      intros Hpos; destruct Hm as (m0 & e0 & Heq); discriminate.
    + destruct Hq as (Hs' & He & Hd); specialize (Hm (conj He Hd)).
      destruct (float_mul (S754_finite s m e) f100) as [s'|s'| |s' m' e'];
        try contradiction; split; try reflexivity.
      intros Hpos; destruct Hm as (m0 & e0 & Heq).
      injection Heq as -> _ _.
      apply nonneg_of_sign. subst s'. apply Z.ltb_ge; lia.
Qed.

Lemma position_percentage_le_100 (position total_size : Z) :
  0 <= position <= total_size -> 0 < total_size ->
  exists p,
    _calculate_position_percentage position total_size = Ok p /\
    float_nonneg p = true /\ SFleb p f100 = true.
Proof.
  intros Hp Ht; unfold _calculate_position_percentage.
  destruct (Z.leb_spec total_size 0); [lia|].
  assert (Hcases : position = 0 \/ position = total_size \/ 0 < position < total_size)
    by lia.
  destruct Hcases as [-> | [-> | Hlt]].
  - unfold int_truediv.
    destruct (Z.eqb_spec total_size 0); [lia|]; cbn [Z.eqb bind].
    assert ((total_size <? 0) = false) as -> by (apply Z.ltb_ge; lia).
    eexists; split; [reflexivity|]; split; reflexivity.
  - rewrite int_truediv_self by assumption.
    eexists; split; [reflexivity|]; split; reflexivity.
  - destruct (int_truediv_lt position total_size Hlt) as (q & -> & Hq).
    cbn [bind]; rewrite float_of_int_100; cbn [bind].
    eexists; split; [reflexivity|].
    destruct q as [s|s| |s m e]; try contradiction.
    + subst s; split; reflexivity.
    + destruct Hq as (-> & He & Hm & Hb).
      destruct (Z.eq_dec (Zpos m) (2 ^ (- e))) as [Heq|Hne].
      * assert (e = -52).
        { assert (- e < 53); [|lia].
          apply (Z.pow_lt_mono_r_iff 2); lia. }
        subst e; change (2 ^ (- -52)) with (Zpos 4503599627370496) in Heq.
        injection Heq as ->; split; reflexivity.
      * unfold float_mul, f100; cbn [SFmul xorb].
        assert (Hpe : 0 < 2 ^ (- e)) by (apply Z.pow_pos_nonneg; lia).
        pose proof (binary_round_aux_le 100 7 false
                      (Zpos (m * 7036874417766400)) (e + -46) loc_Exact
                      ltac:(lia) ltac:(lia) ltac:(lia) ltac:(lia)) as Hr.
        assert (Hin : Zpos (m * 7036874417766400) + 1
                      <= 100 * 2 ^ (- (e + -46))).
        { replace (- (e + -46)) with (46 + - e) by lia.
          rewrite Z.pow_add_r by lia.
          change (2 ^ 46) with 70368744177664.
          rewrite Pos2Z.inj_mul. nia. }
        specialize (Hr Hin).
        destruct (binary_round_aux prec emax false
                    (Zpos (m * 7036874417766400)) (e + -46) loc_Exact)
          as [s'|s'| |s' m' e']; try contradiction.
        -- subst s'; split; reflexivity.
        -- destruct Hr as (-> & He' & Hm' & _).
           split; [reflexivity|].
           apply SFleb_f100; lia.
Qed.

Lemma read_speed_cases (data_size : Z) (elapsed_time : spec_float) :
  Z.abs data_size < 2 ^ 1000 ->
  exists f,
    _calculate_read_speed data_size elapsed_time = Ok f /\
    (is_nan elapsed_time = false -> is_nan f = false) /\
    (0 <= data_size -> is_nan elapsed_time = false -> float_nonneg f = true).
Proof.
  intros Hd; unfold _calculate_read_speed.
  destruct (float_le_zero elapsed_time) eqn:Hle.
  - exists fzero; repeat split.
  - destruct (int_truediv_cases data_size (1024 * 1024) ltac:(lia) Hd)
      as (mb & -> & Hmb); cbn [bind].
    change (1024 * 1024 <? 0) with false in Hmb; rewrite xorb_false_r in Hmb.
    assert (Hnz : float_truediv mb elapsed_time
                  = Ok (SFdiv prec emax mb elapsed_time)).
    { unfold float_truediv; destruct elapsed_time; try reflexivity.
      discriminate Hle. }
    rewrite Hnz; eexists; split; [reflexivity|].
    assert (Hcases : is_nan elapsed_time = false -> float_pos elapsed_time = true).
    { revert Hle; clear; destruct elapsed_time as [s|[|]| |[|] m e];
        cbn; intros; try discriminate; reflexivity. }
    assert (Hsign : is_nan elapsed_time = false ->
                    match SFdiv prec emax mb elapsed_time with
                    | S754_zero s' | S754_finite s' _ _ | S754_infinity s' =>
                        s' = (data_size <? 0)
                    | S754_nan => False
                    end).
    { intros Hn; apply SFdiv_sign; [|auto].
      destruct mb; try contradiction; tauto. }
    split.
    + intros Hn; specialize (Hsign Hn).
      destruct (SFdiv prec emax mb elapsed_time); try reflexivity; contradiction.
    + intros Hpos Hn; specialize (Hsign Hn).
      apply nonneg_of_sign.
      assert ((data_size <? 0) = false) as Hz by (apply Z.ltb_ge; lia).
      rewrite Hz in Hsign.
      destruct (SFdiv prec emax mb elapsed_time); auto.
Qed.

(** X1.  For every position below [2 ^ 1000] in absolute value, and for
    every position from 0 to the total size however large,
    [_calculate_position_percentage] raises nothing and returns a zero or a
    finite float; the float is not negative when the position is not, and
    it is at most [100.0] when the position is at most the total size:
    rounding never takes an offset inside the device beyond either end of
    the scale. *)
Theorem position_percentage_bounded (position total_size : Z) :
  Z.abs position < 2 ^ 1000 \/ 0 <= position <= total_size ->
  exists f,
    _calculate_position_percentage position total_size = Ok f /\
    is_finite f = true /\
    (0 <= position -> float_nonneg f = true) /\
    (0 <= position <= total_size -> SFleb f f100 = true).
Proof.
  intros Hp.
  assert (Hin : 0 <= position <= total_size ->
                exists f,
                  _calculate_position_percentage position total_size = Ok f /\
                  is_finite f = true /\
                  float_nonneg f = true /\ SFleb f f100 = true).
  { intros Hrange.
    destruct (Z.le_gt_cases total_size 0) as [Hle|Hgt].
    - exists fzero; unfold _calculate_position_percentage.
      destruct (Z.leb_spec total_size 0); [|lia].
      repeat split.
    - destruct (position_percentage_le_100 position total_size Hrange Hgt)
        as (p & Hp' & Hnn & Hle).
      exists p; split; [exact Hp'|]; split; [|split; assumption].
      destruct p as [s|[|]| |s m e]; try reflexivity; discriminate. }
  destruct Hp as [Hp|Hp].
  - destruct (position_percentage_cases position total_size Hp)
      as (f & Hf & Hfin & Hnn).
    exists f; split; [exact Hf|]; split; [exact Hfin|]; split; [exact Hnn|].
    intros Hrange; destruct (Hin Hrange) as (f' & Hf' & _ & _ & Hle).
    rewrite Hf in Hf'; injection Hf' as <-; exact Hle.
  - destruct (Hin Hp) as (f & Hf & Hfin & Hnn & Hle).
    exists f; split; [exact Hf|]; split; [exact Hfin|]; split; auto.
Qed.

(** X2.  For every data size below [2 ^ 1000] in absolute value and every
    elapsed time, a nan included, [_calculate_read_speed] raises nothing;
    when the elapsed time is not a nan the speed is not a nan either, and
    it is not negative when the data size is not. *)
Theorem read_speed_total (data_size : Z) (elapsed_time : spec_float) :
  Z.abs data_size < 2 ^ 1000 ->
  exists f,
    _calculate_read_speed data_size elapsed_time = Ok f /\
    (is_nan elapsed_time = false -> is_nan f = false) /\
    (0 <= data_size -> is_nan elapsed_time = false -> float_nonneg f = true).
Proof. exact (read_speed_cases data_size elapsed_time). Qed.

(** ** The worker *)

Local Open Scope list_scope.

Lemma in_range (n i : Z) : In i (range n) <-> 0 <= i < n.
Proof.
  unfold range; rewrite in_map_iff; split.
  - intros (k & <- & Hk); apply in_seq in Hk; lia.
  - intros Hi; exists (Z.to_nat i); split; [lia|].
    apply in_seq; lia.
Qed.

Lemma length_range (n : Z) : List.length (range n) = Z.to_nat n.
Proof. unfold range; rewrite length_map, length_seq; reflexivity. Qed.

Lemma range_split (n : Z) (done rest : list Z) (i : Z) :
  range n = done ++ i :: rest -> i = Z.of_nat (List.length done).
Proof.
  unfold range; intros H.
  assert (Hn : nth_error (map Z.of_nat (seq 0 (Z.to_nat n))) (List.length done) = Some i).
  { rewrite H, nth_error_app2, Nat.sub_diag by lia; reflexivity. }
  rewrite nth_error_map in Hn.
  destruct (nth_error (seq 0 (Z.to_nat n)) (List.length done)) as [k|] eqn:Hk;
    [|discriminate].
  injection Hn as <-.
  assert (Hlt : (List.length done < List.length (seq 0 (Z.to_nat n)))%nat)
    by (apply nth_error_Some; congruence).
  rewrite length_seq in Hlt.
  rewrite nth_error_nth' with (d := 0%nat) in Hk by (rewrite length_seq; lia).
  rewrite seq_nth in Hk by lia. injection Hk as <-. reflexivity.
Qed.


Lemma seek_position_range (sample_count total i : Z) :
  0 <= total -> 0 <= i < sample_count ->
  0 <= seek_position sample_count i total <= total /\
  (0 < total -> seek_position sample_count i total < total).
Proof.
  intros Ht Hi; unfold seek_position; split; [split|].
  - apply Z.div_pos; nia.
  - apply Z.div_le_upper_bound; nia.
  - intros Hpos; apply Z.div_lt_upper_bound; nia.
Qed.

Lemma read_len_range (total pos block_size : Z) :
  0 <= pos <= total ->
  0 <= read_len total pos block_size <= total - pos /\
  (0 <= block_size -> read_len total pos block_size <= block_size) /\
  (block_size <> 0 -> pos < total -> 1 <= read_len total pos block_size).
Proof.
  intros Hp; unfold read_len.
  destruct (Z.ltb_spec block_size 0); lia.
Qed.

Section RunProofs.
Context {NP : Reductions}.
Variable w : World.
Variables block_size sample_count : Z.
Hypothesis Hsize : 0 <= total_bytes w < 2 ^ 1000.
Hypothesis Hblock : -1 <= block_size.

Lemma sample_cases (i : Z) (st : State) :
  0 <= i < sample_count ->
  match sample w block_size sample_count (total_bytes w) i st with
  | inl st' =>
      fault_at w i = None /\
      exists e,
        sampled_at w block_size sample_count i e /\
        st' = mkState (st_read_speeds st ++ [event_speed e])
                (st_access_times st ++ [event_access_time e])
                (st_positions st ++ [event_position e])
                (st_progress st ++ [e])
                (st_ticks st')
  | inr (st', IoStop e) => fault_at w i = Some e /\ st' = st
  | inr (_, PyStop _) => False
  end.
Proof.
  intros Hi; unfold sample, _measure_seek_time, fault_at.
  destruct (seek_error w i) as [e|]; [split; reflexivity|].
  pose proof (seek_position_range sample_count (total_bytes w) i
                ltac:(lia) Hi) as [Hpos _].
  set (pos := seek_position sample_count i (total_bytes w)) in *.
  pose proof (read_len_range (total_bytes w) pos block_size Hpos) as [Hlen _].
  unfold _measure_read_speed, read.
  destruct (Z.ltb_spec block_size (-1)) as [Hlt|_]; [lia|].
  destruct (read_error w i) as [e|]; [split; reflexivity|].
  set (len := read_len (total_bytes w) pos block_size) in *.
  destruct (position_percentage_cases pos (total_bytes w) ltac:(lia))
    as (p & Hp & _).
  destruct (Z.eqb_spec len 0) as [Hz|Hnz].
  - rewrite Hp; split; [reflexivity|].
    eexists (p, fzero, _); split; [|reflexivity].
    split; [exact Hi|].
    exists (st_ticks st); cbn; fold pos len.
    destruct (Z.eqb_spec len 0); [|contradiction].
    repeat split; assumption.
  - destruct (read_speed_cases len
                (float_sub (time w (S (S (S (st_ticks st)))))
                   (time w (S (S (st_ticks st))))) ltac:(lia))
      as (s & Hs & _).
    rewrite Hs, Hp; split; [reflexivity|].
    eexists (p, s, _); split; [|reflexivity].
    split; [exact Hi|].
    exists (st_ticks st); cbn; fold pos len.
    destruct (Z.eqb_spec len 0); [contradiction|].
    repeat split; assumption.
Qed.

Lemma consistent_snoc (st : State) (e : progress_event) (t : nat) :
  consistent st ->
  consistent (mkState (st_read_speeds st ++ [event_speed e])
                (st_access_times st ++ [event_access_time e])
                (st_positions st ++ [event_position e])
                (st_progress st ++ [e]) t).
Proof.
  intros (Hp & Hs & Ht); unfold consistent; cbn.
  rewrite !map_app, Hp, Hs, Ht; repeat split.
Qed.

(** The invariant of the loop: the signals emitted are those of the
    samples done, none of which raised, and the loop stops on the first
    sample whose calls raise. *)
Lemma samples_spec (indices done : list Z) (st : State) :
  (forall i, In i indices -> 0 <= i < sample_count) ->
  consistent st ->
  Forall2 (sampled_at w block_size sample_count) done (st_progress st) ->
  exists st' stopped done',
    samples w block_size sample_count (total_bytes w) indices st = (st', stopped) /\
    consistent st' /\
    Forall2 (sampled_at w block_size sample_count) (done ++ done') (st_progress st') /\
    (forall j, In j done' -> fault_at w j = None) /\
    match stopped with
    | None => done' = indices
    | Some (IoStop e) =>
        exists i rest, indices = done' ++ i :: rest /\ fault_at w i = Some e
    | Some (PyStop _) => False
    end.
Proof.
  revert done st; induction indices as [|i rest IH]; intros done st Hin Hc Hf.
  - exists st, None, []; rewrite app_nil_r.
    split; [reflexivity|]; split; [exact Hc|]; split; [exact Hf|].
    split; [intros j [] | reflexivity].
  - cbn [samples].
    pose proof (sample_cases i st (Hin i (or_introl eq_refl))) as Hs.
    destruct (sample w block_size sample_count (total_bytes w) i st)
      as [st1|[st1 [e|e]]].
    + destruct Hs as (Hio & e & He & Hst1).
      destruct (IH (done ++ [i]) st1) as (st' & stopped & done' & Hrun & Hc' & Hf' & Hok & Hstop).
      * intros j Hj; apply Hin; right; exact Hj.
      * rewrite Hst1; apply consistent_snoc, Hc.
      * rewrite Hst1; cbn [st_progress].
        apply Forall2_app; [exact Hf | constructor; [exact He | constructor]].
      * exists st', stopped, (i :: done'); rewrite Hrun.
        rewrite <- app_assoc in Hf'; cbn [app] in Hf'.
        split; [reflexivity|]; split; [exact Hc'|]; split; [exact Hf'|]; split.
        -- intros j [<- | Hj]; auto.
        -- destruct stopped as [[e'|e']|]; try contradiction.
           ++ destruct Hstop as (i' & rest' & -> & Hi').
              exists i', rest'; split; [reflexivity | assumption].
           ++ subst done'; reflexivity.
    + destruct Hs as [Hio ->].
      exists st, (Some (IoStop e)), []; rewrite app_nil_r.
      split; [reflexivity|]; split; [exact Hc|]; split; [exact Hf|]; split.
      * intros j [].
      * exists i, rest; split; [reflexivity | assumption].
    + contradiction.
Qed.

Lemma compute_ok (rs ats ps : list spec_float) :
  exists r,
    compute_benchmark_stats rs ats ps = Ok r /\
    (rs = [] -> r = zero_results) /\
    (rs <> [] ->
     read_speeds r = rs /\ access_times r = ats /\ positions r = ps /\
     (ats <> [] -> summarised r)).
Proof.
  unfold compute_benchmark_stats, summarised.
  destruct rs as [|x rs]; cbn [list_truthy negb].
  - eexists; repeat split; congruence.
  - destruct ats as [|y ats]; cbn; eexists; repeat split; congruence.
Qed.

End RunProofs.

Lemma firstn_seq_le (k n s : nat) :
  (k <= n)%nat -> firstn k (seq s n) = seq s k.
Proof.
  revert n s; induction k as [|k IH]; intros n s Hk; [reflexivity|].
  destruct n as [|n]; [lia|].
  cbn; f_equal; apply IH; lia.
Qed.

Lemma range_prefix (n : Z) (done rest : list Z) (i : Z) :
  range n = done ++ i :: rest -> i = Z.of_nat (List.length done) /\ done = range i.
Proof.
  intros H; pose proof (range_split n done rest i H) as Hi; split; [exact Hi|].
  assert (Hlen : (List.length done < Z.to_nat n)%nat).
  { rewrite <- length_range, H, length_app; cbn; lia. }
  assert (Hf : firstn (List.length done) (range n) = done)
    by (rewrite H, firstn_app, Nat.sub_diag, firstn_all; cbn; apply app_nil_r).
  rewrite <- Hf; unfold range.
  rewrite firstn_map, firstn_seq_le, Hi, Nat2Z.id by lia.
  reflexivity.
Qed.

Lemma outcome_handled (e : io_exception) :
  handled (outcome e) = caught e.
Proof. destruct e; reflexivity. Qed.

Section RunTheorems.
Context {NP : Reductions}.
Variable w : World.
Variables block_size sample_count : Z.
Hypothesis Hsize : 0 <= total_bytes w < 2 ^ 1000.
Hypothesis Hblock : -1 <= block_size.

(** A run either finishes, after every sample, with the series of the
    signals emitted, or ends as the first exception of the world has it,
    after the samples before that one. *)
Lemma run_spec :
  exists done,
    Forall2 (sampled_at w block_size sample_count) done
      (progress (run w block_size sample_count)) /\
    (forall j, In j done -> fault_at w j = None) /\
    ((exists r,
        final (run w block_size sample_count) = Finished r /\
        open_error w = None /\ done = range sample_count /\
        positions r
        = map event_position (progress (run w block_size sample_count)) /\
        read_speeds r
        = map event_speed (progress (run w block_size sample_count)) /\
        access_times r
        = map event_access_time (progress (run w block_size sample_count)) /\
        (progress (run w block_size sample_count) = [] -> r = zero_results) /\
        (progress (run w block_size sample_count) <> [] -> summarised r))
     \/
     (exists e,
        final (run w block_size sample_count) = outcome e /\
        ((open_error w = Some e /\ done = []) \/
         (open_error w = None /\
          exists i rest, range sample_count = done ++ i :: rest /\
                         fault_at w i = Some e)))).
Proof.
  unfold run, _run_benchmark.
  destruct (open_error w) as [e|] eqn:Hopen.
  - exists []; cbn; split; [constructor|]; split; [intros j []|].
    right; exists e; split; [destruct e; reflexivity|].
    left; split; reflexivity.
  - destruct (samples_spec w block_size sample_count Hsize Hblock
                (range sample_count) [] initial)
      as (st & stopped & done & -> & Hc & Hf & Hok & Hstop).
    + intros i; apply in_range.
    + repeat split.
    + constructor.
    + cbn [app] in Hf; exists done; cbn [progress final].
      split; [exact Hf|]; split; [exact Hok|].
      destruct stopped as [[e|e]|]; try contradiction.
      * right; exists e; split; [destruct e; reflexivity|].
        right; split; [reflexivity | exact Hstop].
      * left.
        destruct Hc as (Hp & Hs & Ht).
        destruct (compute_ok (st_read_speeds st) (st_access_times st)
                    (st_positions st)) as (r & -> & Hzero & Hkeep).
        exists r.
        split; [reflexivity|]; split; [reflexivity|]; split; [exact Hstop|].
        destruct (st_progress st) as [|ev evs] eqn:Hev.
        -- rewrite Hs in Hzero; cbn in Hzero.
           rewrite (Hzero eq_refl); repeat split; congruence.
        -- assert (Hne : st_read_speeds st <> []) by (rewrite Hs; discriminate).
           assert (Hne' : st_access_times st <> [])
             by (rewrite Ht; discriminate).
           destruct (Hkeep Hne) as (Hr1 & Hr2 & Hr3 & Hsum).
           rewrite Hr1, Hr2, Hr3, Hp, Hs, Ht.
           do 3 (split; [reflexivity|]).
           split; [discriminate | intros _; exact (Hsum Hne')].
Qed.

(** Without an exception of the world, a run finishes. *)
Lemma run_spec_no_fault :
  open_error w = None ->
  (forall i, 0 <= i < sample_count -> fault_at w i = None) ->
  exists r,
    final (run w block_size sample_count) = Finished r /\
    Forall2 (sampled_at w block_size sample_count) (range sample_count)
      (progress (run w block_size sample_count)) /\
    positions r
    = map event_position (progress (run w block_size sample_count)) /\
    read_speeds r
    = map event_speed (progress (run w block_size sample_count)) /\
    access_times r
    = map event_access_time (progress (run w block_size sample_count)) /\
    (progress (run w block_size sample_count) = [] -> r = zero_results) /\
    (progress (run w block_size sample_count) <> [] -> summarised r).
Proof.
  intros Hopen Hio.
  destruct run_spec as (done & Hf & _ & [(r & Hr & _ & -> & H)|(e & _ & H)]).
  - exists r; split; [exact Hr|]; split; [exact Hf | exact H].
  - destruct H as [[H _]|(_ & i & rest & Hr & Hi)]; [congruence|].
    rewrite Hio in Hi; [discriminate|].
    apply in_range; rewrite Hr; apply in_elt.
Qed.

End RunTheorems.

(** The difference of two finite floats is not a nan. *)
Lemma SFsub_finite (x y : spec_float) :
  is_finite x = true -> is_finite y = true ->
  is_nan (float_sub x y) = false.
Proof.
  unfold float_sub.
  destruct x as [sx|sx| |sx mx ex]; try discriminate;
    destruct y as [sy|sy| |sy my ey]; try discriminate; intros _ _; cbn [SFsub].
  - destruct sx, sy; reflexivity.
  - reflexivity.
  - reflexivity.
  - unfold binary_normalize.
    match goal with |- context [match ?z with Z0 => _ | Zpos _ => _ | Zneg _ => _ end] =>
      destruct z as [|p|p] end; try reflexivity;
      unfold binary_round;
      match goal with |- context [shl_align ?a ?b ?c] =>
        destruct (shl_align a b c) as [mz ez] end;
      match goal with |- context [binary_round_aux ?p1 ?p2 ?s ?m ?e ?l] =>
        pose proof (binary_round_aux_cases s m e l ltac:(lia)) as Hr;
        destruct (binary_round_aux p1 p2 s m e l) end;
      try reflexivity; contradiction.
Qed.

Section RunExtras.
Context {NP : Reductions}.
Variable w : World.
Variables block_size sample_count : Z.

(** X3.  On a device of less than [2 ^ 1000] bytes and with a block size
    the reader accepts, whatever the sample count and the clock, when the
    calls on the device raise nothing but a [PermissionError], an [OSError]
    or a [RuntimeError], [run] ends with the [finished] signal or with one
    of its two message boxes: no exception of the arithmetic or of the
    aggregation escapes its handlers. *)
Theorem run_ends_handled :
  0 <= total_bytes w < 2 ^ 1000 ->
  -1 <= block_size ->
  only_caught w ->
  handled (final (run w block_size sample_count)) = true.
Proof.
  intros Hsize Hblock [Hopen Hat].
  destruct (run_spec w block_size sample_count Hsize Hblock)
    as (done & _ & _ & [(r & -> & _)|(e & -> & H)]); [reflexivity|].
  rewrite outcome_handled.
  destruct H as [[H _]|(_ & i & rest & _ & Hi)]; eauto.
Qed.


(** X5.  When opening the device raises, or the seek or read of sample [k]
    is the first to raise, [run] has emitted exactly the progress signals
    of the samples before [k] and ends as the exception has it: the
    permission message for a [PermissionError], the text of the exception
    for another [OSError] or a [RuntimeError], and the exception itself
    otherwise; it emits no summary. *)
Theorem run_stops_at_first_fault (k : Z) (e : io_exception) :
  0 <= total_bytes w < 2 ^ 1000 ->
  -1 <= block_size ->
  first_fault w sample_count k e ->
  let t := run w block_size sample_count in
  final t = outcome e /\
  List.length (progress t) = Z.to_nat k /\
  Forall2 (sampled_at w block_size sample_count) (range k) (progress t).
Proof.
  intros Hsize Hblock Hfault t; subst t.
  destruct Hfault as [e Hopen|k e Hopen Hk Hbefore Hat].
  - unfold run, _run_benchmark; rewrite Hopen; cbn.
    split; [destruct e; reflexivity|]; split; [reflexivity | constructor].
  - destruct (run_spec w block_size sample_count Hsize Hblock)
      as (done & Hf & Hok & [(r & _ & _ & -> & _)|(e' & Hfinal & H)]).
    + assert (Hkin : In k (range sample_count)) by (apply in_range; lia).
      rewrite (Hok k Hkin) in Hat; discriminate.
    + destruct H as [[Ho _]|(_ & i & rest & Hr & Hi)]; [congruence|].
      destruct (range_prefix _ _ _ _ Hr) as [Hlen Hdone].
      assert (Hin : 0 <= i < sample_count)
        by (apply in_range; rewrite Hr; apply in_elt).
      assert (Hik : i = k).
      { destruct (Z.lt_trichotomy i k) as [Hlt | [Heq | Hgt]]; [|exact Heq|].
        - rewrite Hbefore in Hi by lia; discriminate.
        - assert (Hkd : In k done) by (rewrite Hdone; apply in_range; lia).
          rewrite (Hok k Hkd) in Hat; discriminate. }
      rewrite Hik in Hi, Hdone; subst done.
      assert (He : e' = e) by congruence; subst e'.
      pose proof (Forall2_length Hf) as Hlen'; rewrite length_range in Hlen'.
      split; [exact Hfinal|]; split; [symmetry; exact Hlen' | exact Hf].
Qed.

(** X6.  In a run of at least one sample on which nothing raises, the
    speed series and the latency series of the summary both hold one value
    per sample, and the six statistics are the mean, the minimum and the
    maximum of these two series: the [0.0] the aggregation puts in place of
    the statistics of a missing series does not appear. *)
Theorem run_summary_statistics :
  0 <= total_bytes w < 2 ^ 1000 ->
  -1 <= block_size ->
  open_error w = None ->
  (forall i, 0 <= i < sample_count -> fault_at w i = None) ->
  0 < sample_count ->
  exists r,
    final (run w block_size sample_count) = Finished r /\
    List.length (read_speeds r) = Z.to_nat sample_count /\
    List.length (access_times r) = Z.to_nat sample_count /\
    List.length (positions r) = Z.to_nat sample_count /\
    summarised r.
Proof.
  intros Hsize Hblock Hopen Hio Hn.
  destruct (run_spec_no_fault w block_size sample_count Hsize Hblock Hopen Hio)
    as (r & Hr & Hf & Hp & Hs & Ht & _ & Hsum).
  pose proof (Forall2_length Hf) as Hlen; rewrite length_range in Hlen.
  exists r; split; [exact Hr|].
  rewrite Hp, Hs, Ht, !length_map, <- Hlen.
  do 3 (split; [reflexivity|]).
  apply Hsum; intros Hnil; rewrite Hnil in Hlen; cbn in Hlen; lia.
Qed.

(** X7.  On a device of less than [2 ^ 1000] bytes, with a block size the
    reader accepts and a clock whose readings are finite, every progress
    signal of a run carries a position between [0.0] and [100.0] and a read
    speed that is neither negative nor a nan. *)
Theorem run_sample_values :
  0 <= total_bytes w < 2 ^ 1000 ->
  -1 <= block_size ->
  (forall k, is_finite (time w k) = true) ->
  Forall (fun e =>
            float_nonneg (event_position e) = true /\
            SFleb (event_position e) f100 = true /\
            is_nan (event_speed e) = false /\
            float_nonneg (event_speed e) = true)
         (progress (run w block_size sample_count)).
Proof.
  intros Hsize Hblock Hclock.
  destruct (run_spec w block_size sample_count Hsize Hblock)
    as (done & Hf & _ & _).
  induction Hf as [|i e done evs He Hf IH]; constructor; [|exact IH].
  destruct He as (Hi & k & Hp & Hs & _); cbv zeta in Hp, Hs.
  pose proof (seek_position_range sample_count (total_bytes w) i
                ltac:(lia) Hi) as [Hpos Hin].
  set (pos := seek_position sample_count i (total_bytes w)) in *.
  pose proof (read_len_range (total_bytes w) pos block_size Hpos) as [Hlen _].
  set (len := read_len (total_bytes w) pos block_size) in *.
  assert (Hposition : float_nonneg (event_position e) = true /\
                      SFleb (event_position e) f100 = true).
  { destruct (Z.eq_dec (total_bytes w) 0) as [Hz|Hnz].
    - unfold _calculate_position_percentage in Hp; rewrite Hz in Hp.
      cbn in Hp; injection Hp as <-; split; reflexivity.
    - destruct (position_percentage_le_100 pos (total_bytes w)
                  ltac:(lia) ltac:(lia)) as (p & Hp' & Hnn & Hle).
      rewrite Hp in Hp'; injection Hp' as <-; split; assumption. }
  destruct Hposition as [Hnn Hle].
  split; [exact Hnn|]; split; [exact Hle|].
  destruct (Z.eqb_spec len 0) as [Hz|Hnz].
  - injection Hs as <-; split; reflexivity.
  - destruct (read_speed_cases len
                (float_sub (time w (S (S (S k)))) (time w (S (S k))))
                ltac:(lia)) as (s & Hs' & Hnan & Hnn').
    rewrite Hs in Hs'; injection Hs' as <-.
    pose proof (SFsub_finite _ _ (Hclock (S (S (S k)))) (Hclock (S (S k)))) as Hn.
    split; [apply Hnan, Hn | apply Hnn'; [lia | exact Hn]].
Qed.

(** X8.  On a device of no bytes that opens and on which no seek or read
    raises, a run still emits one progress signal per sample, each with
    position [0.0] and read speed [0.0], and finishes. *)
Theorem empty_device_run :
  total_bytes w = 0 ->
  -1 <= block_size ->
  open_error w = None ->
  (forall i, 0 <= i < sample_count -> fault_at w i = None) ->
  let t := run w block_size sample_count in
  handled (final t) = true /\
  List.length (progress t) = Z.to_nat sample_count /\
  Forall (fun e => event_position e = fzero /\ event_speed e = fzero)
         (progress t).
Proof.
  intros Hzero Hblock Hopen Hio t; subst t.
  assert (Hsize : 0 <= total_bytes w < 2 ^ 1000) by (rewrite Hzero; lia).
  destruct (run_spec_no_fault w block_size sample_count Hsize Hblock Hopen Hio)
    as (r & Hr & Hf & _).
  split; [rewrite Hr; reflexivity|]; split.
  - rewrite <- (Forall2_length Hf); apply length_range.
  - induction Hf as [|i e done evs He Hf IH]; constructor; [|exact IH].
    destruct He as (Hi & k & Hp & Hs & _); cbv zeta in Hp, Hs.
    rewrite Hzero in Hp, Hs.
    assert (Hseek : seek_position sample_count i 0 = 0)
      by (unfold seek_position; rewrite Z.mul_0_r; apply Zdiv_0_l).
    rewrite Hseek in Hp, Hs.
    assert (Hlen : read_len 0 0 block_size = 0)
      by (unfold read_len; destruct (Z.ltb_spec block_size 0); lia).
    rewrite Hlen in Hs; cbn in Hp, Hs.
    injection Hp as <-; injection Hs as <-; split; reflexivity.
Qed.


End RunExtras.



(** ** The report manager *)

Local Open Scope string_scope.

Lemma list_ascii_of_app (s t : string) :
  list_ascii_of_string (s ++ t)
  = (list_ascii_of_string s ++ list_ascii_of_string t)%list.
Proof. induction s as [|c s IH]; cbn; [reflexivity | rewrite IH; reflexivity]. Qed.

Lemma str_length_app (s t : string) :
  String.length (s ++ t) = (String.length s + String.length t)%nat.
Proof. induction s as [|c s IH]; cbn; [reflexivity | rewrite IH; reflexivity]. Qed.

Lemma str_app_assoc (s t u : string) : ((s ++ t) ++ u = s ++ (t ++ u))%string.
Proof. induction s as [|c s IH]; cbn; [reflexivity | rewrite IH; reflexivity]. Qed.

Lemma replace_char_spec (old new : ascii) (s : string) :
  list_ascii_of_string (replace_char old new s)
  = map (fun c => if Ascii.eqb c old then new else c) (list_ascii_of_string s).
Proof. induction s as [|c s IH]; cbn; [reflexivity | rewrite IH; reflexivity]. Qed.

Lemma safe_device_chars (device : string) (c : ascii) :
  In c (list_ascii_of_string (safe_device device)) -> c <> "/"%char /\ c <> " "%char.
Proof.
  unfold safe_device; rewrite !replace_char_spec, map_map.
  intros H; apply in_map_iff in H as (x & <- & _).
  destruct (Ascii.eqb_spec x "/") as [->|Hx]; cbn.
  - split; discriminate.
  - destruct (Ascii.eqb_spec x " ") as [->|Hy]; [split; discriminate|].
    split; assumption.
Qed.

(** X11.  For every device name, the two default file names hold no "/" and
    no space, are longer than the device name by the length of the fixed
    prefix and extension, and differ by their extension only. *)
Theorem default_filenames_are_flat (device : string) :
  let j := get_default_json_filename device in
  let c := get_default_csv_filename device in
  (forall ch, In ch (list_ascii_of_string j) \/ In ch (list_ascii_of_string c) ->
              ch <> "/"%char /\ ch <> " "%char) /\
  String.length j = (18 + String.length device)%nat /\
  String.length c = (17 + String.length device)%nat /\
  exists stem, j = stem ++ ".json" /\ c = stem ++ ".csv" /\
               String.prefix "smart_report_" stem = true.
Proof.
  cbv zeta; unfold get_default_json_filename, get_default_csv_filename.
  assert (Hlen : forall o n s, String.length (replace_char o n s) = String.length s).
  { intros o n s; induction s as [|a s IH]; cbn; [reflexivity | rewrite IH; reflexivity]. }
  split; [|split; [|split]].
  - intros ch H.
    assert (Hin : In ch (list_ascii_of_string "smart_report_") \/ In ch (list_ascii_of_string (safe_device device))
                  \/ In ch (list_ascii_of_string ".json") \/ In ch (list_ascii_of_string ".csv")).
    { destruct H as [H|H]; rewrite !list_ascii_of_app in H;
        repeat (apply in_app_or in H; destruct H as [H|H]); auto. }
    destruct Hin as [Hin | [Hin | [Hin | Hin]]];
      [| apply (safe_device_chars device); exact Hin | |];
      cbn in Hin; repeat (destruct Hin as [<- | Hin]; [split; discriminate|]);
      contradiction.
  - rewrite !str_length_app; unfold safe_device; rewrite !Hlen; cbn; lia.
  - rewrite !str_length_app; unfold safe_device; rewrite !Hlen; cbn; lia.
  - exists ("smart_report_" ++ safe_device device).
    rewrite !str_app_assoc. split; [reflexivity|]; split; [reflexivity|].
    cbn. destruct (safe_device device); reflexivity.
Qed.

Lemma map_injective_on {A B : Type} (P : A -> Prop) (f : A -> B) :
  (forall x y, P x -> P y -> f x = f y -> x = y) ->
  forall l l', Forall P l -> Forall P l' -> map f l = map f l' -> l = l'.
Proof.
  intros Hinj l; induction l as [|x l IH]; intros [|y l'] Hl Hl' H;
    try discriminate; [reflexivity|].
  cbn in H; injection H as Hxy Hrest.
  inversion Hl; inversion Hl'; subst.
  f_equal; auto.
Qed.

Lemma disk_type_value_injective (t t' : DiskType) :
  disk_type_value t = disk_type_value t' -> t = t'.
Proof. destruct t, t'; cbn; intros H; try reflexivity; discriminate. Qed.

Lemma attribute_data_injective (a b : SmartAttribute) :
  attribute_data a = attribute_data b -> a = b.
Proof.
  destruct a, b; unfold attribute_data; cbn; intros H.
  injection H as -> -> -> -> -> ->; reflexivity.
Qed.

(** X12.  The dictionary [save_json] hands to [json.dump] determines the
    report: two reports with the same dictionary are the same report. *)
Theorem report_data_injective (r r' : SmartReport) :
  report_data r = report_data r' -> r = r'.
Proof.
  destruct r as [d h t attrs rw doc], r' as [d' h' t' attrs' rw' doc'].
  unfold report_data; cbn; intros H.
  injection H as -> -> Ht Hattrs Hraw ->.
  apply disk_type_value_injective in Ht; subst t'.
  assert (attrs = attrs') as ->.
  { apply (map_injective_on (fun _ => True) attribute_data);
      [intros x y _ _; apply attribute_data_injective | | | exact Hattrs];
      apply Forall_forall; auto. }
  assert (rw = rw') as ->
    by (destruct rw, rw'; cbn in Hraw; congruence).
  reflexivity.
Qed.

(** X13.  The rows [save_csv] hands to the writer are the title row, the
    summary row,
    an empty row, a header of 3 cells for an NVME report and of 6 cells
    otherwise, and one row per attribute, each with as many cells as the
    header. *)
Theorem csv_rows_shape (report : SmartReport) :
  exists header body,
    csv_rows report
    = [PStr "Device"; PStr "Health"; PStr "Type"]
      :: [PStr (device report); PStr (health report);
          PStr (disk_type_value (disk_type report))]
      :: [] :: header :: body /\
    List.length header
    = (match disk_type report with NVME => 3 | _ => 6 end)%nat /\
    List.length body = List.length (attributes report) /\
    Forall (fun row => List.length row = List.length header) body.
Proof.
  unfold csv_rows; destruct (disk_type report); do 2 eexists;
    (split; [reflexivity|]); (split; [reflexivity|]);
    (split; [apply length_map|]);
    apply Forall_forall; intros row H; apply in_map_iff in H as (a & <- & _);
    reflexivity.
Qed.

Section CsvOfSynthesis.
Context {CM : CaseMapping}.

Lemma synthesized_nvme_attributes dev p r :
  synthesize_report dev p = Ok r ->
  disk_type r = NVME -> Forall nvme_attribute (attributes r).
Proof.
  unfold synthesize_report; intros H.
  apply bind_ok_inv in H as (t & _ & H).
  apply bind_ok_inv in H as (h & _ & H).
  apply bind_ok_inv in H as (attrs & Hattrs & H).
  injection H as <-; cbn [disk_type attributes]; intros ->.
  unfold parse_attributes in Hattrs.
  destruct (truthy (payload_json p)).
  - apply bind_ok_inv in Hattrs as (nvme_log & _ & Hattrs).
    apply parse_nvme_inv in Hattrs as (its & _ & ->).
    apply Forall_forall; intros a Ha.
    apply in_map_iff in Ha as (kv & <- & _).
    destruct kv; repeat split.
  - injection Hattrs as <-; constructor.
Qed.

(** X14.  Two reports that [synthesize_report] returns and for which
    [save_csv] hands the same rows to the writer have the same device,
    health, family and attributes: the three columns of an NVME export
    lose nothing of an NVME attribute list. *)
Theorem csv_keeps_synthesized_attributes dev p r dev' p' r' :
  synthesize_report dev p = Ok r ->
  synthesize_report dev' p' = Ok r' ->
  csv_rows r = csv_rows r' ->
  device r = device r' /\ health r = health r' /\
  disk_type r = disk_type r' /\ attributes r = attributes r'.
Proof.
  intros Hr Hr' H.
  pose proof (synthesized_nvme_attributes _ _ _ Hr) as Hn.
  pose proof (synthesized_nvme_attributes _ _ _ Hr') as Hn'.
  unfold csv_rows in H.
  injection H as Hd Hh Ht Hrows.
  apply disk_type_value_injective in Ht.
  repeat split; try assumption.
  rewrite <- Ht in Hrows, Hn'.
  destruct (disk_type r); injection Hrows as Hrows.
  - apply (map_injective_on nvme_attribute
             (fun attr => [name attr; value attr; raw attr]));
      [| apply Hn; reflexivity | apply Hn'; reflexivity | exact Hrows].
    intros [i n v w t rw] [i' n' v' w' t' rw'] (Hi & Hw & Hth & _)
           (Hi' & Hw' & Hth' & _) Heq; cbn in *.
    injection Heq as -> -> ->; congruence.
  - apply (map_injective_on (fun _ => True)
             (fun attr => [id attr; name attr; value attr; worst attr;
                           thresh attr; raw attr]));
      [| apply Forall_forall; auto | apply Forall_forall; auto | exact Hrows].
    intros [i n v w t rw] [i' n' v' w' t' rw'] _ _ Heq; cbn in Heq.
    injection Heq as -> -> -> -> -> ->; reflexivity.
  - apply (map_injective_on (fun _ => True)
             (fun attr => [id attr; name attr; value attr; worst attr;
                           thresh attr; raw attr]));
      [| apply Forall_forall; auto | apply Forall_forall; auto | exact Hrows].
    intros [i n v w t rw] [i' n' v' w' t' rw'] _ _ Heq; cbn in Heq.
    injection Heq as -> -> -> -> -> ->; reflexivity.
Qed.

End CsvOfSynthesis.

(** ** Commands and their output *)

Section UtilsProperties.
Context {CM : CaseMapping}.
Variable rt : Runtime.

Lemma mapM_block_device (nodes : list (list (string * pyval))) :
  (forall node, In node nodes -> is_disk node = true ->
                has_key "name" node = true) ->
  mapM (block_device rt) (map PDict nodes)
  = Ok (map (fun node => if is_disk node
                         then Some (device_of_node rt node) else None) nodes).
Proof.
  induction nodes as [|node nodes IH]; intros Hname; [reflexivity|].
  cbn [map mapM].
  rewrite IH by (intros n Hn; apply Hname; right; exact Hn).
  specialize (Hname node (or_introl eq_refl)).
  unfold is_disk, has_key, field in Hname.
  unfold block_device, is_disk, device_of_node, field.
  cbn [get bind getitem].
  destruct (str_eq_val "disk"
              match assoc "type" node with Some v => v | None => PNone end).
  - specialize (Hname eq_refl).
    destruct (assoc "name" node); [reflexivity | discriminate].
  - reflexivity.
Qed.

Lemma somes_filter {A B : Type} (keep : A -> bool) (f : A -> B) (xs : list A) :
  somes (map (fun x => if keep x then Some (f x) else None) xs)
  = map f (filter keep xs).
Proof.
  induction xs as [|x xs IH]; [reflexivity|]; cbn.
  destruct (keep x); cbn; rewrite IH; reflexivity.
Qed.

(** X15.  When [lsblk] exits with status 0 and prints a document whose
    block devices are key-value trees, each disk with a name,
    [list_block_devices] returns the nodes of type "disk", in order, and
    no other; every path starts with "/dev/". *)
Theorem block_devices_are_the_disks
        (out : CommandResult) (data : list (string * pyval))
        (nodes : list (list (string * pyval))) :
  run_cmd rt ["lsblk"; "-J"; "-o"; "NAME,MODEL,TYPE,SIZE"] = Some out ->
  returncode out = 0 ->
  json_loads rt (stdout out) = Decoded (PDict data) ->
  field data "blockdevices" (PList []) = PList (map PDict nodes) ->
  (forall node, In node nodes -> is_disk node = true ->
                has_key "name" node = true) ->
  let devices := map (device_of_node rt) (filter is_disk nodes) in
  list_block_devices rt = inr devices /\
  Forall (fun d => String.prefix "/dev/" (path d) = true) devices /\
  (List.length devices <= List.length nodes)%nat.
Proof.
  intros Hcmd Hrc Hjson Hnodes Hname devices; subst devices.
  split; [|split].
  - unfold list_block_devices; rewrite Hcmd, Hrc, Hjson; cbn [Z.eqb get bind].
    fold (field data "blockdevices" (PList [])); rewrite Hnodes; cbn [iter bind].
    rewrite (mapM_block_device nodes Hname), somes_filter; reflexivity.
  - apply Forall_forall; intros d Hd.
    apply in_map_iff in Hd as (node & <- & _).
    unfold device_of_node; cbn [path].
    cbn. destruct (fstring rt (field node "name" PNone)); reflexivity.
  - rewrite length_map; apply filter_length_le.
Qed.

Lemma block_devices_empty_on_failure (out : CommandResult) :
  run_cmd rt ["lsblk"; "-J"; "-o"; "NAME,MODEL,TYPE,SIZE"] = Some out ->
  returncode out <> 0 \/ json_loads rt (stdout out) = JSONDecodeError ->
  list_block_devices rt = inr [].
Proof.
  intros Hcmd H; unfold list_block_devices; rewrite Hcmd.
  destruct (Z.eqb_spec (returncode out) 0) as [Hz|Hnz]; [|reflexivity].
  destruct H as [H|H]; [contradiction|]; rewrite H; reflexivity.
Qed.

(** X16.  When [smartctl] exits with a status other than 0, prints nothing
    but white space, or prints what [json.loads] rejects with a
    [JSONDecodeError], a [ValueError] or a [TypeError], [run_smart_check]
    returns a report without document or attributes, whose family comes
    from the device name alone and whose health is the scan of the output
    of the command: an output whose upper-case form contains "PASSED"
    gives PASSED. *)
Theorem smart_check_without_document (device : string) (out : CommandResult) :
  has_smartctl rt = true ->
  run_cmd rt ["smartctl"; "-j"; "-H"; "-A"; device] = Some out ->
  returncode out <> 0 \/ blank rt (stdout out) = true \/
  json_loads rt (stdout out) = JSONDecodeError \/
  json_loads rt (stdout out) = DecodeRaised ValueError \/
  json_loads rt (stdout out) = DecodeRaised TypeError ->
  exists r,
    run_smart_check rt device = inr r /\
    DhTypes.device r = device /\
    json_data r = PNone /\ attributes r = [] /\
    report_raw r = Some (stdout out) /\
    disk_type r = (if str_contains "nvme" (lower device) then NVME else UNKNOWN) /\
    health r = _determine_health_from_raw (Some (stdout out)) /\
    (str_contains "PASSED" (upper (stdout out)) = true -> health r = "PASSED").
Proof.
  intros Hhas Hcmd Hwhy.
  assert (Hq : query_smart_json rt device
               = inr (mkSmartPayload PNone (Some (stdout out)))).
  { unfold query_smart_json; rewrite Hhas, Hcmd; cbn [negb].
    destruct (Z.eqb_spec (returncode out) 0) as [Hz|Hnz]; [|reflexivity].
    destruct (blank rt (stdout out)); [reflexivity|]; cbn [negb andb].
    destruct Hwhy as [H | [H | [H | [H | H]]]];
      [contradiction | discriminate | rewrite H; reflexivity ..]. }
  unfold run_smart_check; rewrite Hq.
  unfold synthesize_report, _detect_disk_type, parse_attributes;
    cbn [payload_json payload_raw truthy bind].
  destruct (str_contains "nvme" (lower device)); cbn [bind];
    (eexists; split; [reflexivity|]; cbn;
     repeat (split; [reflexivity|]);
     intros Hp;
     destruct (String.eqb_spec (stdout out) "") as [He|_];
     [rewrite He, upper_empty in Hp; discriminate Hp
     | rewrite Hp; reflexivity]).
Qed.

End UtilsProperties.

(** ** Evaluations *)

Lemma steady_clock_finite (k : nat) : is_finite (steady_clock k) = true.
Proof.
  unfold steady_clock, lit.
  destruct (int_truediv_cases (Z.of_nat (Nat.min k 1000)) 1000
              ltac:(lia) ltac:(lia)) as (f & -> & Hf).
  destruct f; try contradiction; reflexivity.
Qed.

Lemma position_percentage_bounded_witness :
  exists f,
    _calculate_position_percentage 750 1000 = Ok f /\
    is_finite f = true /\ float_nonneg f = true /\ SFleb f f100 = true.
Proof.
  assert (Hrange : 0 <= 750 <= 1000) by lia.
  destruct (position_percentage_bounded 750 1000 (or_intror Hrange))
    as (f & Hf & Hfin & Hnn & Hle).
  exists f; split; [exact Hf|]; split; [exact Hfin|]; split;
    [apply Hnn | apply Hle]; lia.
Defined.

Lemma read_speed_total_witness :
  exists f,
    _calculate_read_speed (4 * 1024 * 1024) (lit 1 2) = Ok f /\
    is_nan f = false /\ float_nonneg f = true.
Proof.
  destruct (read_speed_total (4 * 1024 * 1024) (lit 1 2) eq_refl)
    as (f & Hf & Hnan & Hnn).
  exists f; split; [exact Hf|]; split;
    [apply Hnan; reflexivity | apply Hnn; [lia | reflexivity]].
Defined.


Lemma run_ends_handled_witness :
  handled (final (run faulty_world 4096 10)) = true.
Proof.
  apply (run_ends_handled (NP := seq_reductions));
    [cbn; lia | lia |].
  split.
  - intros e He; discriminate He.
  - intros i e; unfold fault_at; cbn.
    destruct (Z.eqb i 2); intros He; [injection He as <-; reflexivity|].
    discriminate He.
Defined.


Lemma run_summary_statistics_witness :
  exists r,
    final (run steady_world 4096 10) = Finished r /\
    List.length (access_times r) = 10%nat /\
    summarised r.
Proof.
  destruct (run_summary_statistics (NP := seq_reductions)
              steady_world 4096 10 ltac:(cbn; lia) ltac:(lia) eq_refl
              (fun _ _ => eq_refl) ltac:(lia))
    as (r & Hr & _ & Hlen & _ & Hsum).
  exists r; split; [exact Hr|]; split; [exact Hlen | exact Hsum].
Defined.


Lemma run_stops_at_first_fault_witness :
  final (run faulty_world 4096 10) = ErrorDialog "Input/output error" /\
  List.length (progress (run faulty_world 4096 10)) = 2%nat.
Proof.
  assert (Hfault : first_fault faulty_world 10 2 (OSError "Input/output error")).
  { apply fault_on_sample; [reflexivity | lia | | reflexivity].
    intros i Hi; unfold fault_at; cbn.
    destruct (Z.eqb_spec i 2); [lia | reflexivity]. }
  destruct (run_stops_at_first_fault (NP := seq_reductions)
              faulty_world 4096 10 2 (OSError "Input/output error")
              ltac:(cbn; lia) ltac:(lia) Hfault) as (Hfinal & Hlen & _).
  split; [exact Hfinal | exact Hlen].
Defined.

Lemma run_sample_values_witness :
  Forall (fun e =>
            float_nonneg (event_position e) = true /\
            SFleb (event_position e) f100 = true /\
            is_nan (event_speed e) = false /\
            float_nonneg (event_speed e) = true)
         (progress (run steady_world 4096 10)).
Proof.
  apply (run_sample_values (NP := seq_reductions));
    [cbn; lia | lia | exact steady_clock_finite].
Defined.

Lemma empty_device_run_witness :
  handled (final (run empty_world 4096 10)) = true /\
  List.length (progress (run empty_world 4096 10)) = 10%nat /\
  Forall (fun e => event_position e = fzero /\ event_speed e = fzero)
         (progress (run empty_world 4096 10)).
Proof.
  exact (empty_device_run (NP := seq_reductions) empty_world 4096 10
           eq_refl ltac:(lia) eq_refl (fun _ _ => eq_refl)).
Defined.

Lemma report_data_injective_witness :
  mkSmartReport "/dev/sda" "PASSED" UNKNOWN [] (Some "PASSED") PNone
  = mkSmartReport "/dev/sda" "PASSED" UNKNOWN [] (Some "PASSED") PNone.
Proof.
  exact (report_data_injective
           (mkSmartReport "/dev/sda" "PASSED" UNKNOWN [] (Some "PASSED") PNone)
           (mkSmartReport "/dev/sda" "PASSED" UNKNOWN [] (Some "PASSED") PNone)
           eq_refl).
Defined.

Lemma csv_keeps_synthesized_attributes_witness :
  attributes
    (mkSmartReport "/dev/nvme0" "UNKNOWN" NVME
       [mkSmartAttribute (PStr "-") (PStr "temperature") (PInt 33)
          (PStr "") (PStr "") (PInt 33)]
       None
       (PDict [("nvme_smart_health_information_log",
                PDict [("temperature", PInt 33)])]))
  = [mkSmartAttribute (PStr "-") (PStr "temperature") (PInt 33)
       (PStr "") (PStr "") (PInt 33)].
Proof.
  exact (proj2 (proj2 (proj2
           (csv_keeps_synthesized_attributes (CM := ascii_case)
              "/dev/nvme0"
              (mkSmartPayload
                 (PDict [("nvme_smart_health_information_log",
                          PDict [("temperature", PInt 33)])]) None)
              _
              "/dev/nvme0"
              (mkSmartPayload
                 (PDict [("nvme_smart_health_information_log",
                          PDict [("temperature", PInt 33)])]) None)
              _ eq_refl eq_refl eq_refl)))).
Defined.

Lemma smart_check_without_document_witness :
  exists r,
    run_smart_check failing_runtime "/dev/sda" = inr r /\
    json_data r = PNone /\ health r = "PASSED".
Proof.
  assert (Hcode : returncode
                    (mkCommandResult 4 "smart_status: passed: false" "") <> 0)
    by discriminate.
  destruct (smart_check_without_document (CM := ascii_case) failing_runtime
              "/dev/sda" (mkCommandResult 4 "smart_status: passed: false" "")
              eq_refl eq_refl (or_introl Hcode))
    as (r & Hr & _ & Hdoc & _ & _ & _ & _ & Hpassed).
  exists r; split; [exact Hr|]; split; [exact Hdoc|].
  apply Hpassed; reflexivity.
Defined.

Lemma block_devices_are_the_disks_witness :
  list_block_devices lsblk_runtime
  = inr [mkDeviceInfo "/dev/sda" (PStr "") (PStr "1T")].
Proof.
  exact (proj1 (block_devices_are_the_disks lsblk_runtime
                  (mkCommandResult 0 "lsblk output" "")
                  [("blockdevices",
                    PList [PDict [("name", PStr "sda"); ("type", PStr "disk");
                                  ("size", PStr "1T")];
                           PDict [("name", PStr "sr0"); ("type", PStr "rom")]])]
                  [[("name", PStr "sda"); ("type", PStr "disk");
                    ("size", PStr "1T")];
                   [("name", PStr "sr0"); ("type", PStr "rom")]]
                  eq_refl eq_refl eq_refl eq_refl
                  ltac:(intros node [<- | [<- | []]]; intros H;
                        [reflexivity | discriminate]))).
Defined.
